(** * Analytics service: event intake and aggregation

    A shallow embedding of the event pipeline of the analytics service:
    - the repository module (required as [./repository]): [insertEvent],
      [upsertDailyMetrics], [upsertHourlyMetrics], [upsertProductMetrics];
    - [src/processor.js]: [processEvent];
    - the Kafka consumer (required as [./kafka]): the [eachMessage]
      callback of [startConsumer].

    The PostgreSQL tables of [migrations/001_create_analytics_tables.sql]
    are finite maps indexed by their unique keys.  Every [pool.query] call
    is one auto-committed statement: it either applies its SQL semantics or
    is rejected and leaves the tables as they were.  Monetary values are
    integers counted in hundredths, the scale of the NUMERIC(12,2) columns;
    counters are integers.  Module [Numeric] repeats the processor for
    amounts finer than a hundredth, with the coercion to NUMERIC(12,2) of
    every value written.  Logging is left out. *)

From Stdlib Require Import ZArith QArith String List Lia.
From stdpp Require Import base option gmap strings list fin_maps sorting.

Local Open Scope Z_scope.
Local Open Scope string_scope.
Local Open Scope list_scope.

(** ** Events, as [validateEvent] hands them to the processor *)

Record Item := {
  productId : Z;
  quantity : option Z;
  price : option Z
}.

Record Payload := {
  totalAmount : option Z;
  items : option (list Item)
}.

Record Event := {
  type : string;
  orderId : Z;
  userId : option Z;
  data : option Payload
}.

(** The constants of the shared schema package, spelled as in the tests
    and in INTERFACES.md. *)
Module EVENT_TYPES.
Definition ORDER_CREATED := "order.created".
Definition ORDER_CONFIRMED := "order.confirmed".
Definition ORDER_CANCELLED := "order.cancelled".
Definition ORDER_SHIPPED := "order.shipped".
Definition PAYMENT_AUTHORIZED := "payment.authorized".
Definition PAYMENT_FAILED := "payment.failed".
End EVENT_TYPES.

(** ** Tables *)

(** A row of [events_log]; the table is keyed by (event_type, order_id).
    Two columns the database fills by itself are left out: [id], numbered
    by a sequence that also advances on inserts that conflict or fail, and
    [received_at], set from the database clock. *)
Record EventRow := {
  user_id : option Z;
  correlation_id : option string;
  row_data : option Payload
}.

Record DailyRow := {
  orders_created : Z;
  orders_confirmed : Z;
  orders_cancelled : Z;
  orders_shipped : Z;
  revenue_confirmed : Z;
  revenue_cancelled : Z;
  payment_success_count : Z;
  payment_failure_count : Z
}.

Record HourlyRow := {
  order_count : Z;
  revenue : Z
}.

Record ProductRow := {
  total_quantity_sold : Z;
  total_revenue : Z;
  product_order_count : Z;
  last_ordered_at : option Z
}.

(** The three aggregate tables, keyed by date (days since the epoch, UTC),
    hour bucket (an instant in milliseconds) and product id. *)
Record Aggregates := {
  daily_metrics : gmap Z DailyRow;
  hourly_order_counts : gmap Z HourlyRow;
  product_metrics : gmap Z ProductRow
}.

Record Store := {
  events_log : gmap (string * Z) EventRow;
  aggregates : Aggregates
}.

Definition emptyStore : Store :=
  {| events_log := ∅;
     aggregates := {| daily_metrics := ∅; hourly_order_counts := ∅;
                      product_metrics := ∅ |} |}.

(** ** The connection pool and asynchronous calls *)

Inductive Statement :=
  | InsertEvent | UpsertDaily | UpsertHourly | UpsertProduct.

(** [sent] lists the statements handed to [pool.query], oldest first.
    [failAfter = Some n] makes the statement after the next [n] ones be
    rejected, once. *)
Record Pool := {
  db : Store;
  sent : list Statement;
  failAfter : option nat
}.

(** What [RETURNING id] yields for an inserted row: an id, never null.
    Which number the sequence hands out is not modelled. *)
Inductive RowId := InsertedId.

(** How an awaited call ends: it returns a value, or it rejects with an
    [Error] object, as the pg driver, kafkajs and the language itself
    (TypeError) do.  Rejections with other values are not modelled. *)
Inductive Completion (A : Type) :=
  | Return (a : A)
  | Throw.
Arguments Return {A} a.
Arguments Throw {A}.

Definition Async (A : Type) : Type := Pool → Pool * Completion A.

#[global] Instance Async_ret : MRet Async := λ A a p, (p, Return a).

#[global] Instance Async_bind : MBind Async := λ A B f m p,
  match m p with
  | (p', Return a) => f a p'
  | (p', Throw) => (p', Throw)
  end.

(** [try { m } catch (error) { logger.error(..., error.message, error.stack) }]:
    the rejection is logged and swallowed.  Reading [message] and [stack]
    is safe because what was thrown is an [Error] object (see
    [Completion]). *)
Definition tryCatch (m : Async unit) : Async unit := λ p,
  match m p with
  | (p', _) => (p', Return tt)
  end.

(** [await getPool().query(...)]. *)
Definition query {A} (st : Statement) (run : Store → Store * A) : Async A := λ p,
  match failAfter p with
  | Some O =>
      ({| db := db p; sent := sent p ++ [st]; failAfter := None |}, Throw)
  | fa =>
      let '(s', a) := run (db p) in
      ({| db := s'; sent := sent p ++ [st]; failAfter := pred <$> fa |}, Return a)
  end.

(** [for (const x of l) { await body(x) }]. *)
Fixpoint forOf {A} (l : list A) (body : A → Async unit) : Async unit :=
  match l with
  | [] => mret tt
  | x :: l' => body x;; forOf l' body
  end.

(** [x || 0] on a number that may be missing. *)
Definition orZero (x : option Z) : Z :=
  match x with
  | Some v => if decide (v = 0) then 0 else v
  | None => 0
  end.

(** ** repository.js *)

Definition withAggregates (s : Store) (a : Aggregates) : Store :=
  {| events_log := events_log s; aggregates := a |}.

(** INSERT INTO events_log ... ON CONFLICT (event_type, order_id) DO NOTHING
    RETURNING id. *)
Definition insertEvent (eventType : string) (orderId : Z) (userId : option Z)
    (correlationId : option string) (data : option Payload) : Async (option RowId) :=
  query InsertEvent (λ s,
    match events_log s !! (eventType, orderId) with
    | Some _ => (s, None)
    | None =>
        ({| events_log :=
              <[(eventType, orderId) :=
                  {| user_id := userId;
                     correlation_id := correlationId; row_data := data |}]>
                (events_log s);
            aggregates := aggregates s |}, Some InsertedId)
    end).

(** The [increments] object of [upsertDailyMetrics]: any subset of fields. *)
Record DailyIncrements := {
  ordersCreated : option Z;
  ordersConfirmed : option Z;
  ordersCancelled : option Z;
  ordersShipped : option Z;
  revenueConfirmed : option Z;
  revenueCancelled : option Z;
  paymentSuccessCount : option Z;
  paymentFailureCount : option Z
}.

(** daily_metrics.col + EXCLUDED.col, column by column. *)
Definition addDaily (r e : DailyRow) : DailyRow :=
  {| orders_created := orders_created r + orders_created e;
     orders_confirmed := orders_confirmed r + orders_confirmed e;
     orders_cancelled := orders_cancelled r + orders_cancelled e;
     orders_shipped := orders_shipped r + orders_shipped e;
     revenue_confirmed := revenue_confirmed r + revenue_confirmed e;
     revenue_cancelled := revenue_cancelled r + revenue_cancelled e;
     payment_success_count := payment_success_count r + payment_success_count e;
     payment_failure_count := payment_failure_count r + payment_failure_count e |}.

(** INSERT ... ON CONFLICT (key) DO UPDATE SET ...: [excluded] is the row
    proposed for insertion, [merge] the SET clause. *)
Definition onConflictUpdate {R} (merge : R → R → R) (key : Z) (excluded : R)
    (table : gmap Z R) : gmap Z R :=
  match table !! key with
  | None => <[key := excluded]> table
  | Some existing => <[key := merge existing excluded]> table
  end.

Definition upsertDailyMetrics (date : Z) (increments : DailyIncrements) : Async unit :=
  let excluded :=
    {| orders_created := default 0 (ordersCreated increments);
       orders_confirmed := default 0 (ordersConfirmed increments);
       orders_cancelled := default 0 (ordersCancelled increments);
       orders_shipped := default 0 (ordersShipped increments);
       revenue_confirmed := default 0 (revenueConfirmed increments);
       revenue_cancelled := default 0 (revenueCancelled increments);
       payment_success_count := default 0 (paymentSuccessCount increments);
       payment_failure_count := default 0 (paymentFailureCount increments) |} in
  query UpsertDaily (λ s,
    let a := aggregates s in
    (withAggregates s
       {| daily_metrics := onConflictUpdate addDaily date excluded (daily_metrics a);
          hourly_order_counts := hourly_order_counts a;
          product_metrics := product_metrics a |}, tt)).

Definition addHourly (r e : HourlyRow) : HourlyRow :=
  {| order_count := order_count r + order_count e;
     revenue := revenue r + revenue e |}.

Definition upsertHourlyMetrics (hourBucket orderCountIncrement revenueIncrement : Z)
    : Async unit :=
  query UpsertHourly (λ s,
    let a := aggregates s in
    (withAggregates s
       {| daily_metrics := daily_metrics a;
          hourly_order_counts :=
            onConflictUpdate addHourly hourBucket
              {| order_count := orderCountIncrement; revenue := revenueIncrement |}
              (hourly_order_counts a);
          product_metrics := product_metrics a |}, tt)).

(** The SET clause of [upsertProductMetrics]: sums, [order_count + 1], and
    [last_ordered_at = EXCLUDED.last_ordered_at]. *)
Definition mergeProduct (r e : ProductRow) : ProductRow :=
  {| total_quantity_sold := total_quantity_sold r + total_quantity_sold e;
     total_revenue := total_revenue r + total_revenue e;
     product_order_count := product_order_count r + 1;
     last_ordered_at := last_ordered_at e |}.

Definition upsertProductMetrics (productId quantitySold revenue now : Z) : Async unit :=
  query UpsertProduct (λ s,
    let a := aggregates s in
    (withAggregates s
       {| daily_metrics := daily_metrics a;
          hourly_order_counts := hourly_order_counts a;
          product_metrics :=
            onConflictUpdate mergeProduct productId
              {| total_quantity_sold := quantitySold; total_revenue := revenue;
                 product_order_count := 1; last_ordered_at := Some now |}
              (product_metrics a) |}, tt)).

(** ** processor.js *)

Section Processor.

(** Offset of the process's local time from UTC, in milliseconds, for a
    process whose time zone keeps one offset (UTC, or a zone without
    daylight saving). *)
Variable tz : Z.

(** [now.toISOString().split('T')[0]]: the UTC calendar date, as a day
    number. *)
Definition today (now : Z) : Z := now `div` 86400000.

(** [new Date(y, m, d, h)] from the local fields of [now]: the start of
    the local hour, in a zone of constant offset [tz].  Where the offset
    changes during the year the constructor resolves a repeated local hour
    to its first occurrence, which this arithmetic does not describe. *)
Definition hourBucket (now : Z) : Z := now - (now + tz) `mod` 3600000.

Definition processEvent (now : Z) (event : Event) (correlationId : option string)
    : Async bool :=
  let today := today now in
  let hourBucket := hourBucket now in
  eventId ← insertEvent (type event) (orderId event) (userId event)
              correlationId (data event);
  match eventId with
  | None => mret false
  | Some _ =>
      (if decide (type event = EVENT_TYPES.ORDER_CREATED) then
         upsertDailyMetrics today
           {| ordersCreated := Some 1; ordersConfirmed := None;
              ordersCancelled := None; ordersShipped := None;
              revenueConfirmed := None; revenueCancelled := None;
              paymentSuccessCount := None; paymentFailureCount := None |};;
         upsertHourlyMetrics hourBucket 1 0
       else if decide (type event = EVENT_TYPES.ORDER_CONFIRMED) then
         let totalAmount := orZero (data event ≫= totalAmount) in
         upsertDailyMetrics today
           {| ordersCreated := None; ordersConfirmed := Some 1;
              ordersCancelled := None; ordersShipped := None;
              revenueConfirmed := Some totalAmount; revenueCancelled := None;
              paymentSuccessCount := None; paymentFailureCount := None |};;
         upsertHourlyMetrics hourBucket 0 totalAmount;;
         match data event ≫= items with
         | Some its =>
             forOf its (λ item,
               let itemRevenue := orZero (price item) * orZero (quantity item) in
               upsertProductMetrics (productId item) (orZero (quantity item))
                 itemRevenue now)
         | None => mret tt
         end
       else if decide (type event = EVENT_TYPES.ORDER_CANCELLED) then
         let cancelledAmount := orZero (data event ≫= totalAmount) in
         upsertDailyMetrics today
           {| ordersCreated := None; ordersConfirmed := None;
              ordersCancelled := Some 1; ordersShipped := None;
              revenueConfirmed := None; revenueCancelled := Some cancelledAmount;
              paymentSuccessCount := None; paymentFailureCount := None |}
       else if decide (type event = EVENT_TYPES.ORDER_SHIPPED) then
         upsertDailyMetrics today
           {| ordersCreated := None; ordersConfirmed := None;
              ordersCancelled := None; ordersShipped := Some 1;
              revenueConfirmed := None; revenueCancelled := None;
              paymentSuccessCount := None; paymentFailureCount := None |}
       else if decide (type event = EVENT_TYPES.PAYMENT_AUTHORIZED) then
         upsertDailyMetrics today
           {| ordersCreated := None; ordersConfirmed := None;
              ordersCancelled := None; ordersShipped := None;
              revenueConfirmed := None; revenueCancelled := None;
              paymentSuccessCount := Some 1; paymentFailureCount := None |}
       else if decide (type event = EVENT_TYPES.PAYMENT_FAILED) then
         upsertDailyMetrics today
           {| ordersCreated := None; ordersConfirmed := None;
              ordersCancelled := None; ordersShipped := None;
              revenueConfirmed := None; revenueCancelled := None;
              paymentSuccessCount := None; paymentFailureCount := Some 1 |}
       else mret tt);;
      mret true
  end.

End Processor.

(** ** kafka.js: the [eachMessage] callback of [startConsumer] *)

(** A Kafka header value: a [Buffer] or a plain string. *)
Inductive HeaderValue :=
  | HBuffer (content : string)
  | HString (s : string).

(** JavaScript truthiness: every object is truthy, a string is truthy
    unless empty. *)
Definition truthy (v : HeaderValue) : bool :=
  match v with
  | HBuffer _ => true
  | HString s => bool_decide (s ≠ "")
  end.

(** [Buffer.isBuffer(v) ? v.toString() : v]. *)
Definition headerText (v : HeaderValue) : string :=
  match v with
  | HBuffer content => content
  | HString s => s
  end.

(** The object [JSON.parse] yields: its [correlationId] property, if it
    has one, and the remaining properties. *)
Record ParsedEvent := {
  payloadCorrelationId : option string;
  payload : Event
}.

(** [message.value], by what [JSON.parse] makes of its text. *)
Inductive RawValue :=
  | Unparseable (text : string)
  | Document (event : ParsedEvent).

Record Message := {
  headers : option (gmap string HeaderValue);
  value : option RawValue
}.

(** [a || b] on two header lookups. *)
Definition orElse (a b : option HeaderValue) : option HeaderValue :=
  match a with
  | Some v => if truthy v then a else b
  | None => b
  end.

(** The [correlationId] variable after the header block; [None] is the
    initial [null]. *)
Definition headerCorrelationId (message : Message) : option string :=
  match headers message with
  | Some hs =>
      match orElse (hs !! "x-correlation-id") (hs !! "correlationId") with
      | Some headerValue =>
          if truthy headerValue then Some (headerText headerValue) else None
      | None => None
      end
  | None => None
  end.

Section Consumer.

(** [validateEvent] of the shared schema package: [Some data] stands for
    [{ success: true, data }]. *)
Variable validateEvent : ParsedEvent → option Event.

(** The event handed to [validateEvent]: the header value, when it is a
    non-empty string, replaces the payload's own [correlationId]. *)
Definition injected (message : Message) (event : ParsedEvent) : ParsedEvent :=
  match headerCorrelationId message with
  | Some c =>
      if decide (c = "") then event
      else {| payloadCorrelationId := Some c; payload := payload event |}
  | None => event
  end.

(** The arguments [eachMessage] calls [messageHandler] with, or [None]
    when it returns without calling it (empty or unparseable value,
    failed validation). *)
Definition handlerCall (message : Message) : option (Event * option string) :=
  let correlationId := headerCorrelationId message in
  match value message with
  | None => None
  | Some (Unparseable _) => None
  | Some (Document event) =>
      match validateEvent (injected message event) with
      | None => None
      | Some data => Some (data, correlationId)
      end
  end.

Definition eachMessage (messageHandler : Event → option string → Async bool)
    (message : Message) : Async unit :=
  match handlerCall message with
  | None => mret tt
  | Some (data, correlationId) =>
      tryCatch (messageHandler data correlationId;; mret tt)
  end.

End Consumer.

(** ** Derived views used in the statements *)

Definition eventKey (e : Event) : string * Z := (type e, orderId e).

Definition recognized (t : string) : Prop :=
  t = EVENT_TYPES.ORDER_CREATED ∨ t = EVENT_TYPES.ORDER_CONFIRMED ∨
  t = EVENT_TYPES.ORDER_CANCELLED ∨ t = EVENT_TYPES.ORDER_SHIPPED ∨
  t = EVENT_TYPES.PAYMENT_AUTHORIZED ∨ t = EVENT_TYPES.PAYMENT_FAILED.

(** A pool on which no statement is going to be rejected. *)
Definition healthy (s : Store) (log : list Statement) : Pool :=
  {| db := s; sent := log; failAfter := None |}.

Definition zeroDaily : DailyRow :=
  {| orders_created := 0; orders_confirmed := 0; orders_cancelled := 0;
     orders_shipped := 0; revenue_confirmed := 0; revenue_cancelled := 0;
     payment_success_count := 0; payment_failure_count := 0 |}.

(** The row [processEvent] proposes for [daily_metrics], if any. *)
Definition dailyOf (e : Event) : option DailyRow :=
  let amount := orZero (data e ≫= totalAmount) in
  if decide (type e = EVENT_TYPES.ORDER_CREATED) then
    Some {| orders_created := 1; orders_confirmed := 0; orders_cancelled := 0;
            orders_shipped := 0; revenue_confirmed := 0; revenue_cancelled := 0;
            payment_success_count := 0; payment_failure_count := 0 |}
  else if decide (type e = EVENT_TYPES.ORDER_CONFIRMED) then
    Some {| orders_created := 0; orders_confirmed := 1; orders_cancelled := 0;
            orders_shipped := 0; revenue_confirmed := amount; revenue_cancelled := 0;
            payment_success_count := 0; payment_failure_count := 0 |}
  else if decide (type e = EVENT_TYPES.ORDER_CANCELLED) then
    Some {| orders_created := 0; orders_confirmed := 0; orders_cancelled := 1;
            orders_shipped := 0; revenue_confirmed := 0; revenue_cancelled := amount;
            payment_success_count := 0; payment_failure_count := 0 |}
  else if decide (type e = EVENT_TYPES.ORDER_SHIPPED) then
    Some {| orders_created := 0; orders_confirmed := 0; orders_cancelled := 0;
            orders_shipped := 1; revenue_confirmed := 0; revenue_cancelled := 0;
            payment_success_count := 0; payment_failure_count := 0 |}
  else if decide (type e = EVENT_TYPES.PAYMENT_AUTHORIZED) then
    Some {| orders_created := 0; orders_confirmed := 0; orders_cancelled := 0;
            orders_shipped := 0; revenue_confirmed := 0; revenue_cancelled := 0;
            payment_success_count := 1; payment_failure_count := 0 |}
  else if decide (type e = EVENT_TYPES.PAYMENT_FAILED) then
    Some {| orders_created := 0; orders_confirmed := 0; orders_cancelled := 0;
            orders_shipped := 0; revenue_confirmed := 0; revenue_cancelled := 0;
            payment_success_count := 0; payment_failure_count := 1 |}
  else None.

(** The row proposed for [hourly_order_counts], if any. *)
Definition hourlyOf (e : Event) : option HourlyRow :=
  if decide (type e = EVENT_TYPES.ORDER_CREATED) then
    Some {| order_count := 1; revenue := 0 |}
  else if decide (type e = EVENT_TYPES.ORDER_CONFIRMED) then
    Some {| order_count := 0; revenue := orZero (data e ≫= totalAmount) |}
  else None.

(** The line items that reach [upsertProductMetrics]. *)
Definition lineItems (e : Event) : list Item :=
  if decide (type e = EVENT_TYPES.ORDER_CONFIRMED)
  then default [] (data e ≫= items) else [].

Definition productRowOf (now : Z) (item : Item) : ProductRow :=
  {| total_quantity_sold := orZero (quantity item);
     total_revenue := orZero (price item) * orZero (quantity item);
     product_order_count := 1;
     last_ordered_at := Some now |}.

Definition upsertItems (now : Z) (its : list Item) (m : gmap Z ProductRow)
    : gmap Z ProductRow :=
  foldl (λ m item, onConflictUpdate mergeProduct (productId item)
                     (productRowOf now item) m) m its.

Definition upsertOpt {R} (merge : R → R → R) (key : Z) (row : option R)
    (m : gmap Z R) : gmap Z R :=
  match row with
  | Some r => onConflictUpdate merge key r m
  | None => m
  end.

(** What one applied event does to the aggregate tables when every
    statement succeeds. *)
Definition aggregated (tz now : Z) (e : Event) (a : Aggregates) : Aggregates :=
  {| daily_metrics := upsertOpt addDaily (today now) (dailyOf e) (daily_metrics a);
     hourly_order_counts :=
       upsertOpt addHourly (hourBucket tz now) (hourlyOf e) (hourly_order_counts a);
     product_metrics := upsertItems now (lineItems e) (product_metrics a) |}.

(** The statements one applied event sends after the ledger insert. *)
Definition statementsOf (e : Event) : list Statement :=
  match dailyOf e with Some _ => [UpsertDaily] | None => [] end ++
  match hourlyOf e with Some _ => [UpsertHourly] | None => [] end ++
  replicate (length (lineItems e)) UpsertProduct.

Definition ledgerRow (s : Store) (e : Event) (correlationId : option string)
    : EventRow :=
  {| user_id := userId e; correlation_id := correlationId; row_data := data e |}.

(** Sums over the line items of one product. *)
Definition sumOver (f : Item → Z) (p : Z) (its : list Item) : Z :=
  foldr (λ item acc, if decide (productId item = p) then f item + acc else acc) 0 its.

(** The additive columns of a product row. *)
Definition totals (r : ProductRow) : Z * Z * Z :=
  (total_quantity_sold r, total_revenue r, product_order_count r).

Definition zeroHourly : HourlyRow := {| order_count := 0; revenue := 0 |}.

Definition zeroProduct : ProductRow :=
  {| total_quantity_sold := 0; total_revenue := 0; product_order_count := 0;
     last_ordered_at := None |}.

(** The product row after the line items [its] of one order, processed at
    [now], have been merged into [old]. *)
Definition withLineItems (now p : Z) (its : list Item) (old : ProductRow)
    : ProductRow :=
  {| total_quantity_sold :=
       total_quantity_sold old + sumOver (λ i, orZero (quantity i)) p its;
     total_revenue :=
       total_revenue old + sumOver (λ i, orZero (price i) * orZero (quantity i)) p its;
     product_order_count := product_order_count old + sumOver (λ _, 1) p its;
     last_ordered_at := Some now |}.

(** The store after one event on a healthy pool. *)
Definition applied (tz now : Z) (e : Event) (c : option string) (s : Store) : Store :=
  match events_log s !! eventKey e with
  | Some _ => s
  | None => {| events_log := <[eventKey e := ledgerRow s e c]> (events_log s);
               aggregates := aggregated tz now e (aggregates s) |}
  end.

(** Two deliveries handled one after the other, at [t1] and at [t2]. *)
Definition processInOrder (tz t1 t2 : Z) (first second : Event)
    (c1 c2 : option string) : Async (bool * bool) :=
  a ← processEvent tz t1 first c1;
  b ← processEvent tz t2 second c2;
  mret (a, b).

#[global] Instance recognized_dec (t : string) : Decision (recognized t).
Proof. unfold recognized. apply _. Defined.

(** ** Sample events *)

Definition orderCreated1 : Event :=
  {| type := "order.created"; orderId := 1; userId := Some 10; data := None |}.

(** The order of the scenario: 74.98 in total, two units of product 1 at
    29.99 and one unit of product 3 at 15.00. *)
Definition orderConfirmed2 : Event :=
  {| type := "order.confirmed"; orderId := 2; userId := Some 10;
     data := Some
       {| totalAmount := Some 7498;
          items := Some [ {| productId := 1; quantity := Some 2; price := Some 2999 |};
                          {| productId := 3; quantity := Some 1; price := Some 1500 |} ] |} |}.

(** A confirmed order whose payload has neither a total nor, for its line
    of product 5, a price. *)
Definition orderConfirmedBare : Event :=
  {| type := "order.confirmed"; orderId := 8; userId := None;
     data := Some
       {| totalAmount := None;
          items := Some [ {| productId := 5; quantity := Some 4; price := None |} ] |} |}.

Definition orderShipped4 : Event :=
  {| type := "order.shipped"; orderId := 4; userId := Some 10; data := None |}.

Definition promoApplied : Event :=
  {| type := "promo.applied"; orderId := 7; userId := None; data := None |}.

(** A validator that accepts every parsed event as it is. *)
Definition acceptAll (event : ParsedEvent) : option Event := Some (payload event).

(** A header lookup that yields a truthy value. *)
Definition usable (o : option HeaderValue) : bool :=
  match o with
  | Some v => truthy v
  | None => false
  end.

(** Messages carrying [orderCreated1]: without headers, with and without a
    [correlationId] in the payload, and with a header next to the
    payload's own identifier. *)
Definition plainMessage : Message :=
  {| headers := None;
     value := Some (Document {| payloadCorrelationId := None;
                                payload := orderCreated1 |}) |}.

Definition payloadIdMessage : Message :=
  {| headers := None;
     value := Some (Document {| payloadCorrelationId := Some "req-42";
                                payload := orderCreated1 |}) |}.

Definition headerIdMessage : Message :=
  {| headers := Some {[ "x-correlation-id" := HBuffer "trace-7" ]};
     value := Some (Document {| payloadCorrelationId := Some "req-42";
                                payload := orderCreated1 |}) |}.

(** ** The statements of one event, one by one *)

(** An upsert as the pool sees it: its kind and what it does to the
    aggregate tables when it is accepted. *)
Definition Write : Type := Statement * (Aggregates → Aggregates).

Definition dailyWrite (date : Z) (row : DailyRow) : Write :=
  (UpsertDaily, λ a,
     {| daily_metrics := onConflictUpdate addDaily date row (daily_metrics a);
        hourly_order_counts := hourly_order_counts a;
        product_metrics := product_metrics a |}).

Definition hourlyWrite (bucket : Z) (row : HourlyRow) : Write :=
  (UpsertHourly, λ a,
     {| daily_metrics := daily_metrics a;
        hourly_order_counts :=
          onConflictUpdate addHourly bucket row (hourly_order_counts a);
        product_metrics := product_metrics a |}).

Definition productWrite (now : Z) (item : Item) : Write :=
  (UpsertProduct, λ a,
     {| daily_metrics := daily_metrics a;
        hourly_order_counts := hourly_order_counts a;
        product_metrics :=
          onConflictUpdate mergeProduct (productId item) (productRowOf now item)
            (product_metrics a) |}).

(** The upserts [processEvent] sends after the ledger insert, in order. *)
Definition writesOf (tz now : Z) (e : Event) : list Write :=
  match dailyOf e with Some r => [dailyWrite (today now) r] | None => [] end ++
  match hourlyOf e with Some r => [hourlyWrite (hourBucket tz now) r] | None => [] end ++
  (productWrite now <$> lineItems e).

Definition applyWrites (ws : list Write) (a : Aggregates) : Aggregates :=
  foldl (λ a w, w.2 a) a ws.

Definition send (w : Write) : Async unit :=
  query w.1 (λ s, (withAggregates s (w.2 (aggregates s)), tt)).

(** The event counters of a daily row: every column but the two revenue
    totals.  [countersLe r r'] says none of them is smaller in [r']. *)
Definition countersLe (r r' : DailyRow) : Prop :=
  (orders_created r ≤ orders_created r')%Z ∧
  (orders_confirmed r ≤ orders_confirmed r')%Z ∧
  (orders_cancelled r ≤ orders_cancelled r')%Z ∧
  (orders_shipped r ≤ orders_shipped r')%Z ∧
  (payment_success_count r ≤ payment_success_count r')%Z ∧
  (payment_failure_count r ≤ payment_failure_count r')%Z.

(** Rows stay and their event counters do not decrease, in the three
    aggregate tables. *)
Definition countersGrow (a a' : Aggregates) : Prop :=
  (∀ d r, daily_metrics a !! d = Some r →
     ∃ r', daily_metrics a' !! d = Some r' ∧ countersLe r r') ∧
  (∀ b r, hourly_order_counts a !! b = Some r →
     ∃ r', hourly_order_counts a' !! b = Some r' ∧
           (order_count r ≤ order_count r')%Z) ∧
  (∀ p r, product_metrics a !! p = Some r →
     ∃ r', product_metrics a' !! p = Some r' ∧
           (product_order_count r ≤ product_order_count r')%Z).

(** ** More sample events *)

Definition orderCancelled3 : Event :=
  {| type := "order.cancelled"; orderId := 3; userId := Some 10;
     data := Some {| totalAmount := Some 5998; items := None |} |}.

Definition paymentFailed6 : Event :=
  {| type := "payment.failed"; orderId := 6; userId := Some 10; data := None |}.

(** ** The Kafka consumer's life cycle *)

(** The topic names of the shared schema package, as INTERFACES.md lists
    them. *)
Module TOPICS.
Definition ORDER_EVENTS := "order.events".
Definition PAYMENT_EVENTS := "payment.events".
End TOPICS.

(** A call on the kafkajs consumer; [Run] carries the [eachMessage]
    callback it is given. *)
Inductive ConsumerCall :=
  | Connect
  | Subscribe (topic : string)
  | Run (callback : Message → Async unit)
  | Disconnect.

(** The module state of the consumer: the [isRunning] flag and the calls
    made on the kafkajs consumer, oldest first.  [refuseAfter = Some n]
    makes the call after the next [n] ones be rejected, once. *)
Record Client := {
  isRunning : bool;
  calls : list ConsumerCall;
  refuseAfter : option nat
}.

Definition Kafka (A : Type) : Type := Client → Client * Completion A.

#[global] Instance Kafka_ret : MRet Kafka := λ A a k, (k, Return a).

#[global] Instance Kafka_bind : MBind Kafka := λ A B f m k,
  match m k with
  | (k', Return a) => f a k'
  | (k', Throw) => (k', Throw)
  end.

(** [await consumer.connect()] and the like. *)
Definition consumerCall (call : ConsumerCall) : Kafka unit := λ k,
  match refuseAfter k with
  | Some O =>
      ({| isRunning := isRunning k; calls := calls k ++ [call];
          refuseAfter := None |}, Throw)
  | ra =>
      ({| isRunning := isRunning k; calls := calls k ++ [call];
          refuseAfter := pred <$> ra |}, Return tt)
  end.

Definition setRunning (b : bool) : Kafka unit := λ k,
  ({| isRunning := b; calls := calls k; refuseAfter := refuseAfter k |}, Return tt).

Definition startConsumer (validateEvent : ParsedEvent → option Event)
    (messageHandler : Event → option string → Async bool) : Kafka unit := λ k,
  if isRunning k then (k, Return tt)
  else
    (consumerCall Connect;;
     consumerCall (Subscribe TOPICS.ORDER_EVENTS);;
     consumerCall (Subscribe TOPICS.PAYMENT_EVENTS);;
     setRunning true;;
     consumerCall (Run (eachMessage validateEvent messageHandler))) k.

Definition stopConsumer : Kafka unit := λ k,
  if isRunning k then (consumerCall Disconnect;; setRunning false) k
  else (k, Return tt).

Definition getHealthStatus (k : Client) : string :=
  if isRunning k then "connected" else "disconnected".

(** ** The read side: all-time totals *)

(** COALESCE(SUM(column), 0) over [daily_metrics], read back with
    [parseInt]. *)
Definition sumColumn (column : DailyRow → Z) (m : gmap Z DailyRow) : Z :=
  map_fold (λ _ r acc, column r + acc) 0 m.

(** The four counts [getConversion] returns when its query succeeds.  Its
    [conversionRates], computed from them in floating point, are not part
    of this record. *)
Record ConversionCounts := {
  created : Z;
  confirmed : Z;
  shipped : Z;
  cancelled : Z
}.

Definition getConversionCounts (s : Store) : ConversionCounts :=
  let m := daily_metrics (aggregates s) in
  {| created := sumColumn orders_created m;
     confirmed := sumColumn orders_confirmed m;
     shipped := sumColumn orders_shipped m;
     cancelled := sumColumn orders_cancelled m |}.

(** [totalOrders] and [ordersByStatus] of [getOverview], when its queries
    succeed; the other fields of the overview are formatted or divided in
    floating point and are not part of this record. *)
Record OverviewOrders := {
  totalOrders : Z;
  ordersByStatus : ConversionCounts
}.

Definition getOverviewOrders (s : Store) : OverviewOrders :=
  let m := daily_metrics (aggregates s) in
  let totalOrders := sumColumn orders_created m in
  {| totalOrders := totalOrders;
     ordersByStatus :=
       {| created := totalOrders - sumColumn orders_confirmed m
                     - sumColumn orders_cancelled m;
          confirmed := sumColumn orders_confirmed m - sumColumn orders_shipped m;
          shipped := sumColumn orders_shipped m;
          cancelled := sumColumn orders_cancelled m |} |}.

(** The [limit] of the top products route: [parsed] is the outcome of
    [parseInt(req.query.limit, 10)], with [None] for NaN. *)
Definition topProductsLimit (parsed : option Z) : Z :=
  let limit :=
    match parsed with
    | Some v => if decide (v = 0) then 10 else v
    | None => 10
    end in
  let limit := if decide (limit < 1) then 1 else limit in
  if decide (limit > 50) then 50 else limit.

(** ** db.js: running the migrations *)

(** [s.endsWith(suffix)]. *)
Definition endsWith (s suffix : string) : Prop :=
  String.list_ascii_of_string suffix `suffix_of` String.list_ascii_of_string s.

#[global] Instance endsWith_dec (s suffix : string) : Decision (endsWith s suffix).
Proof. unfold endsWith. apply _. Defined.

(** The order of [Array.prototype.sort] without comparator, on file names:
    code unit by code unit. *)
Definition nameLe (a b : string) : Prop := String.leb a b = true.

#[global] Instance nameLe_dec : RelDecision nameLe.
Proof. intros a b. unfold nameLe. apply _. Defined.

Section Migrations.

(** Whether reading or executing a migration file fails. *)
Variable rejects : string → bool.

(** The loop over [sqlFiles]: the files attempted, in order, and how the
    loop ended. *)
Fixpoint executeAll (sqlFiles : list string) : list string * Completion unit :=
  match sqlFiles with
  | [] => ([], Return tt)
  | file :: rest =>
      if rejects file then ([file], Throw)
      else let '(attempted, r) := executeAll rest in (file :: attempted, r)
  end.

(** [readdir] is the outcome of [fs.readdir(migrationsDir)], [None] when
    it fails. *)
Definition runMigrations (readdir : option (list string))
    : list string * Completion unit :=
  match readdir with
  | None => ([], Throw)
  | Some files =>
      let sqlFiles := merge_sort nameLe (filter (λ f, endsWith f ".sql") files) in
      executeAll sqlFiles
  end.

End Migrations.

(** ** Replaying the ledger *)

(** The event a ledger row was written for. *)
Definition eventOfRow (key : string * Z) (row : EventRow) : Event :=
  {| type := key.1; orderId := key.2; userId := user_id row; data := row_data row |}.

(** The sum of [f] over the events of the ledger. *)
Definition replayed (f : Event → Z) (ledger : gmap (string * Z) EventRow) : Z :=
  map_fold (λ key row acc, f (eventOfRow key row) + acc) 0 ledger.

(** SUM(column) over [hourly_order_counts]. *)
Definition sumHourly (column : HourlyRow → Z) (m : gmap Z HourlyRow) : Z :=
  map_fold (λ _ r acc, column r + acc) 0 m.

Definition dailyColumns : list (DailyRow → Z) :=
  [orders_created; orders_confirmed; orders_cancelled; orders_shipped;
   revenue_confirmed; revenue_cancelled; payment_success_count;
   payment_failure_count].

(** Every total of the aggregate tables is what the ledgered events add up
    to: the eight daily columns and the two hourly columns summed over
    their rows, and the three additive columns of every product. *)
Definition agreesWithLedger (s : Store) : Prop :=
  let ledger := events_log s in
  let a := aggregates s in
  Forall (λ column,
      sumColumn column (daily_metrics a)
      = replayed (λ e, column (default zeroDaily (dailyOf e))) ledger)
    dailyColumns ∧
  sumHourly order_count (hourly_order_counts a)
    = replayed (λ e, order_count (default zeroHourly (hourlyOf e))) ledger ∧
  sumHourly revenue (hourly_order_counts a)
    = replayed (λ e, revenue (default zeroHourly (hourlyOf e))) ledger ∧
  ∀ p, let row := default zeroProduct (product_metrics a !! p) in
    total_quantity_sold row
      = replayed (λ e, sumOver (λ i, orZero (quantity i)) p (lineItems e)) ledger ∧
    total_revenue row
      = replayed (λ e, sumOver (λ i, orZero (price i) * orZero (quantity i)) p
                         (lineItems e)) ledger ∧
    product_order_count row
      = replayed (λ e, sumOver (λ _, 1) p (lineItems e)) ledger.

(** Deliveries handled one after the other: each with its processing
    instant and correlation identifier. *)
Definition processAll (tz : Z) (deliveries : list (Z * Event * option string))
    : Async unit :=
  forOf deliveries (λ d, processEvent tz d.1.1 d.1.2 d.2;; mret tt).

(** ** Amounts finer than a hundredth *)

(** An upsert of one proposed row into [product_metrics]. *)
Definition productRowWrite (key : Z) (row : ProductRow) : Write :=
  (UpsertProduct, λ a,
     {| daily_metrics := daily_metrics a;
        hourly_order_counts := hourly_order_counts a;
        product_metrics :=
          onConflictUpdate mergeProduct key row (product_metrics a) |}).

(** The pipeline once more, for payloads whose amounts are not whole
    hundredths.  A payload number [z] stands for the decimal [z / scale]
    of the currency unit; [scale = 100] gives the hundredths of the
    definitions above.  In JavaScript the amounts are Numbers, and a
    Number is taken as the decimal the driver sends for it.  A value bound
    to a NUMERIC(12,2) column is coerced to that type when the row
    proposed for insertion is built, before the ON CONFLICT clause adds
    it.  Quantities stay whole numbers, as their INTEGER columns
    require. *)
Module Numeric.

Local Abbreviation storeDaily := upsertDailyMetrics.
Local Abbreviation storeHourly := upsertHourlyMetrics.
Local Abbreviation storeProduct := upsertProductMetrics.
Local Abbreviation StoredIncrements := Build_DailyIncrements.

(** The coercion to NUMERIC(12,2), in hundredths: two decimals, ties away
    from zero.  (A value of more than twelve digits is rejected instead,
    which is a rejected statement.) *)
Definition numeric_12_2 (x : Q) : Z :=
  Z.sgn (Qnum x) *
  ((2 * Z.abs (Qnum x) * 100 + Z.pos (Qden x)) `div` (2 * Z.pos (Qden x))).

(** The [increments] object, with Numbers in the two revenue fields. *)
Record DailyIncrements := {
  ordersCreated : option Z;
  ordersConfirmed : option Z;
  ordersCancelled : option Z;
  ordersShipped : option Z;
  revenueConfirmed : option Q;
  revenueCancelled : option Q;
  paymentSuccessCount : option Z;
  paymentFailureCount : option Z
}.

Definition upsertDailyMetrics (date : Z) (increments : DailyIncrements) : Async unit :=
  storeDaily date
    (StoredIncrements
       (ordersCreated increments) (ordersConfirmed increments)
       (ordersCancelled increments) (ordersShipped increments)
       (numeric_12_2 <$> revenueConfirmed increments)
       (numeric_12_2 <$> revenueCancelled increments)
       (paymentSuccessCount increments) (paymentFailureCount increments)).

Definition upsertHourlyMetrics (hourBucket orderCountIncrement : Z)
    (revenueIncrement : Q) : Async unit :=
  storeHourly hourBucket orderCountIncrement (numeric_12_2 revenueIncrement).

Definition upsertProductMetrics (productId quantitySold : Z) (revenue : Q)
    (now : Z) : Async unit :=
  storeProduct productId quantitySold (numeric_12_2 revenue) now.

Section Numbers.

(** How many payload units make one currency unit. *)
Variable scale : positive.

(** The Number product [a * b], as the decimal the driver sends for it. *)
Variable times : Q → Q → Q.

Variable tz : Z.

(** The Number a payload amount is parsed to. *)
Definition number (z : Z) : Q := z # scale.

(** [itemRevenue] of a line item. *)
Definition itemRevenue (item : Item) : Q :=
  times (number (orZero (price item))) (inject_Z (orZero (quantity item))).

(** Step 2 of [processEvent]: the switch on the event type. *)
Definition updateMetrics (now : Z) (event : Event) : Async unit :=
  let today := today now in
  let hourBucket := hourBucket tz now in
  if decide (type event = EVENT_TYPES.ORDER_CREATED) then
    upsertDailyMetrics today
      {| ordersCreated := Some 1; ordersConfirmed := None;
         ordersCancelled := None; ordersShipped := None;
         revenueConfirmed := None; revenueCancelled := None;
         paymentSuccessCount := None; paymentFailureCount := None |};;
    upsertHourlyMetrics hourBucket 1 (inject_Z 0)
  else if decide (type event = EVENT_TYPES.ORDER_CONFIRMED) then
    let totalAmount := number (orZero (data event ≫= totalAmount)) in
    upsertDailyMetrics today
      {| ordersCreated := None; ordersConfirmed := Some 1;
         ordersCancelled := None; ordersShipped := None;
         revenueConfirmed := Some totalAmount; revenueCancelled := None;
         paymentSuccessCount := None; paymentFailureCount := None |};;
    upsertHourlyMetrics hourBucket 0 totalAmount;;
    match data event ≫= items with
    | Some its =>
        forOf its (λ item,
          upsertProductMetrics (productId item) (orZero (quantity item))
            (itemRevenue item) now)
    | None => mret tt
    end
  else if decide (type event = EVENT_TYPES.ORDER_CANCELLED) then
    let cancelledAmount := number (orZero (data event ≫= totalAmount)) in
    upsertDailyMetrics today
      {| ordersCreated := None; ordersConfirmed := None;
         ordersCancelled := Some 1; ordersShipped := None;
         revenueConfirmed := None; revenueCancelled := Some cancelledAmount;
         paymentSuccessCount := None; paymentFailureCount := None |}
  else if decide (type event = EVENT_TYPES.ORDER_SHIPPED) then
    upsertDailyMetrics today
      {| ordersCreated := None; ordersConfirmed := None;
         ordersCancelled := None; ordersShipped := Some 1;
         revenueConfirmed := None; revenueCancelled := None;
         paymentSuccessCount := None; paymentFailureCount := None |}
  else if decide (type event = EVENT_TYPES.PAYMENT_AUTHORIZED) then
    upsertDailyMetrics today
      {| ordersCreated := None; ordersConfirmed := None;
         ordersCancelled := None; ordersShipped := None;
         revenueConfirmed := None; revenueCancelled := None;
         paymentSuccessCount := Some 1; paymentFailureCount := None |}
  else if decide (type event = EVENT_TYPES.PAYMENT_FAILED) then
    upsertDailyMetrics today
      {| ordersCreated := None; ordersConfirmed := None;
         ordersCancelled := None; ordersShipped := None;
         revenueConfirmed := None; revenueCancelled := None;
         paymentSuccessCount := None; paymentFailureCount := Some 1 |}
  else mret tt.

Definition processEvent (now : Z) (event : Event) (correlationId : option string)
    : Async bool :=
  eventId ← insertEvent (type event) (orderId event) (userId event)
              correlationId (data event);
  match eventId with
  | None => mret false
  | Some _ => updateMetrics now event;; mret true
  end.

(** The event as the NUMERIC(12,2) columns see it: its total in
    hundredths. *)
Definition written (e : Event) : Event :=
  {| type := type e; orderId := orderId e; userId := userId e;
     data := Some
       {| totalAmount :=
            Some (numeric_12_2 (number (orZero (data e ≫= totalAmount))));
          items := data e ≫= items |} |}.

(** What a line item adds to its product's revenue, in hundredths. *)
Definition lineRevenue (item : Item) : Z := numeric_12_2 (itemRevenue item).

Definition lineWrite (now : Z) (item : Item) : Write :=
  productRowWrite (productId item)
    {| total_quantity_sold := orZero (quantity item);
       total_revenue := lineRevenue item;
       product_order_count := 1; last_ordered_at := Some now |}.

(** The upserts [updateMetrics] sends, in order. *)
Definition writesOf (now : Z) (e : Event) : list Write :=
  match dailyOf (written e) with
  | Some r => [dailyWrite (today now) r] | None => [] end ++
  match hourlyOf (written e) with
  | Some r => [hourlyWrite (hourBucket tz now) r] | None => [] end ++
  (lineWrite now <$> lineItems e).

End Numbers.

End Numeric.

(** The product table after the loop over the line items. *)
Definition upsertLines (scale : positive) (times : Q → Q → Q) (now : Z)
    (its : list Item) (m : gmap Z ProductRow) : gmap Z ProductRow :=
  foldl (λ m item,
    onConflictUpdate mergeProduct (productId item)
      {| total_quantity_sold := orZero (quantity item);
         total_revenue := Numeric.lineRevenue scale times item;
         product_order_count := 1; last_ordered_at := Some now |} m) m its.

(** The spec's accumulation, for comparison: the exact sum of the amounts,
    rounded to two decimals only when it is read. *)
Definition roundedAtRead (scale : positive) (amounts : list Z) : Z :=
  Numeric.numeric_12_2 (foldr Qplus (inject_Z 0) (Numeric.number scale <$> amounts)).

(** Two confirmed orders of half a cent each, in thousandths. *)
Definition halfCentA : Event :=
  {| type := "order.confirmed"; orderId := 11; userId := None;
     data := Some {| totalAmount := Some 5; items := None |} |}.

Definition halfCentB : Event :=
  {| type := "order.confirmed"; orderId := 12; userId := None;
     data := Some {| totalAmount := Some 5; items := None |} |}.

(** * Properties *)

(** ** Running on a healthy pool *)

#[local] Arguments upsertProductMetrics : simpl never.

Ltac clash_types :=
  unfold EVENT_TYPES.ORDER_CREATED, EVENT_TYPES.ORDER_CONFIRMED,
    EVENT_TYPES.ORDER_CANCELLED, EVENT_TYPES.ORDER_SHIPPED,
    EVENT_TYPES.PAYMENT_AUTHORIZED, EVENT_TYPES.PAYMENT_FAILED in *;
  congruence.

Ltac not_recognized :=
  let H := fresh in
  unfold recognized; simpl; intros H;
  repeat destruct H as [H|H]; discriminate H.

Ltac run_async :=
  unfold upsertDailyMetrics, upsertHourlyMetrics, insertEvent, query,
    mbind, Async_bind, mret, Async_ret, withAggregates;
  simpl.

Lemma upsertProductMetrics_healthy (productId quantitySold revenue now : Z)
    (s : Store) (log : list Statement) :
  upsertProductMetrics productId quantitySold revenue now (healthy s log) =
    (healthy (withAggregates s
       {| daily_metrics := daily_metrics (aggregates s);
          hourly_order_counts := hourly_order_counts (aggregates s);
          product_metrics :=
            onConflictUpdate mergeProduct productId
              {| total_quantity_sold := quantitySold; total_revenue := revenue;
                 product_order_count := 1; last_ordered_at := Some now |}
              (product_metrics (aggregates s)) |}) (log ++ [UpsertProduct]),
     Return tt).
Proof. reflexivity. Qed.

Lemma forOf_items_healthy (now : Z) (its : list Item) (ev : gmap (string * Z) EventRow)
    (d : gmap Z DailyRow) (h : gmap Z HourlyRow) (m : gmap Z ProductRow)
    (log : list Statement) :
  forOf its (λ item,
      upsertProductMetrics (productId item) (orZero (quantity item))
        (orZero (price item) * orZero (quantity item)) now)
    (healthy {| events_log := ev;
                aggregates := {| daily_metrics := d; hourly_order_counts := h;
                                 product_metrics := m |} |} log)
  = (healthy {| events_log := ev;
                aggregates := {| daily_metrics := d; hourly_order_counts := h;
                                 product_metrics := upsertItems now its m |} |}
       (log ++ replicate (length its) UpsertProduct), Return tt).
Proof.
  revert m log. induction its as [|item its IH]; intros m log.
  - simpl. unfold mret, Async_ret. by rewrite app_nil_r.
  - cbn [forOf]. unfold mbind, Async_bind.
    rewrite upsertProductMetrics_healthy. unfold withAggregates. cbn [events_log aggregates daily_metrics hourly_order_counts product_metrics].
    rewrite IH. by rewrite <- app_assoc.
Qed.

(** On a healthy pool [processEvent] returns: [false] for a ledgered key
    with nothing but the insert attempted, [true] otherwise with the ledger
    row added and the tables updated as [aggregated] says. *)
Lemma processEvent_healthy (tz now : Z) (e : Event) (c : option string)
    (s : Store) (log : list Statement) :
  processEvent tz now e c (healthy s log) =
    match events_log s !! eventKey e with
    | Some _ => (healthy s (log ++ [InsertEvent]), Return false)
    | None =>
        (healthy {| events_log := <[eventKey e := ledgerRow s e c]> (events_log s);
                    aggregates := aggregated tz now e (aggregates s) |}
           (log ++ InsertEvent :: statementsOf e), Return true)
    end.
Proof.
  destruct s as [ev [d h m]].
  unfold processEvent, eventKey, healthy. run_async.
  destruct (ev !! (type e, orderId e)) as [row|] eqn:Hrow; simpl; [done|].
  unfold aggregated, statementsOf, dailyOf, hourlyOf, lineItems, ledgerRow.
  destruct e as [ty oid uid [[amt [its|]]|]]; simpl in *;
    repeat case_decide; try (exfalso; clash_types);
    simpl; rewrite <- ?app_assoc; simpl; try done.
  pose proof (forOf_items_healthy now its) as Hloop. unfold healthy in Hloop.
  rewrite Hloop. by rewrite <- app_assoc.
Qed.

Lemma unrecognized_views (e : Event) :
  ¬ recognized (type e) → dailyOf e = None ∧ hourlyOf e = None ∧ lineItems e = [].
Proof.
  intros Hun. unfold recognized in Hun.
  unfold dailyOf, hourlyOf, lineItems.
  repeat case_decide; try done; exfalso; apply Hun; auto 10.
Qed.

Lemma unrecognized_aggregated (tz now : Z) (e : Event) (a : Aggregates) :
  ¬ recognized (type e) → aggregated tz now e a = a.
Proof.
  intros (Hd & Hh & Hl)%unrecognized_views.
  unfold aggregated. rewrite Hd, Hh, Hl. by destruct a.
Qed.

Lemma then_true_not_false {A} (m : Async A) (p p' : Pool) :
  (m;; mret true) p ≠ (p', Return false).
Proof.
  unfold mbind, Async_bind, mret, Async_ret.
  destruct (m p) as [q [a|]]; intros [=].
Qed.

Lemma insertEvent_null_inv (ty : string) (oid : Z) (uid : option Z)
    (c : option string) (d : option Payload) (p q : Pool) :
  insertEvent ty oid uid c d p = (q, Return None) →
  is_Some (events_log (db p) !! (ty, oid)) ∧ db q = db p.
Proof.
  unfold insertEvent, query.
  destruct (failAfter p) as [[|n]|];
    destruct (events_log (db p) !! (ty, oid)) as [row|];
    simpl; intros [= <-]; eauto.
Qed.

(** [processEvent] never answers [false] after the ledger insert went
    through, whatever happens to the later statements. *)
Lemma processEvent_false_inv (tz now : Z) (e : Event) (c : option string)
    (p p' : Pool) :
  processEvent tz now e c p = (p', Return false) →
  is_Some (events_log (db p) !! eventKey e) ∧ db p' = db p.
Proof.
  unfold processEvent, eventKey.
  unfold mbind at 1. unfold Async_bind at 1.
  destruct (insertEvent _ _ _ _ _ p) as [q [[i|]|]] eqn:Hins.
  - intros H. by apply then_true_not_false in H.
  - unfold mret, Async_ret. intros [= <-].
    by apply insertEvent_null_inv in Hins.
  - discriminate.
Qed.

(** ** The ledger as idempotency gate *)

(** Every recognized event sends the daily upsert right after the ledger
    insert.  When that statement is rejected the call throws with the
    ledger row already stored and the aggregates untouched, and a later
    delivery of the same event is answered as a duplicate. *)
Lemma rejected_upsert_leaves_event_ledgered (tz now later : Z) (e : Event)
    (c c' : option string) (s : Store) (log : list Statement) :
  recognized (type e) →
  events_log s !! eventKey e = None →
  let stored := {| events_log := <[eventKey e := ledgerRow s e c]> (events_log s);
                   aggregates := aggregates s |} in
  processEvent tz now e c {| db := s; sent := log; failAfter := Some 1%nat |}
  = (healthy stored (log ++ [InsertEvent; UpsertDaily]), Throw) ∧
  snd (processEvent tz later e c'
         (healthy stored (log ++ [InsertEvent; UpsertDaily]))) = Return false.
Proof.
  intros Hrec Hnew stored. split.
  - unfold processEvent, eventKey in *. run_async. rewrite Hnew. simpl.
    unfold healthy, stored, ledgerRow, eventKey.
    unfold recognized in Hrec.
    repeat case_decide; simpl; rewrite <- ?app_assoc; try done;
      exfalso; intuition.
  - rewrite processEvent_healthy. unfold stored. cbn [events_log].
    by rewrite lookup_insert_eq.
Qed.

(** C1, evaluated on the code: [orderCreated1] on the empty store, with
    the statement after the ledger insert rejected.  The rejection
    propagates, but the ledger row stays, no aggregate has the event, and
    processing the same event again answers [false].  ([src/processor.js]
    opens no transaction; the repository also holds a variant of
    [processEvent] that runs the same steps between BEGIN and
    COMMIT/ROLLBACK on a dedicated client.) *)
Lemma processEvent_rejection_leaves_ledger_row :
  let p0 := {| db := emptyStore; sent := []; failAfter := Some 1%nat |} in
  let p1 := fst (processEvent 0 0 orderCreated1 None p0) in
  snd (processEvent 0 0 orderCreated1 None p0) = Throw ∧
  sent p1 = [InsertEvent; UpsertDaily] ∧
  db p1 ≠ emptyStore ∧
  is_Some (events_log (db p1) !! eventKey orderCreated1) ∧
  aggregates (db p1) = aggregates emptyStore ∧
  processEvent 0 3600000 orderCreated1 None p1 =
    ({| db := db p1; sent := [InsertEvent; UpsertDaily; InsertEvent];
        failAfter := None |}, Return false).
Proof.
  repeat split; try reflexivity.
  - intros H. apply (f_equal (λ s, events_log s !! eventKey orderCreated1)) in H.
    vm_compute in H. discriminate.
  - vm_compute. eauto.
Qed.

(** C2: from a store where the event is not ledgered, on a healthy pool,
    the first call answers [true] and the second [false]; the second call
    leaves the store as the first left it and sends nothing but the ledger
    insert. *)
Theorem processEvent_twice (tz t1 t2 : Z) (e : Event) (c1 c2 : option string)
    (s : Store) (log : list Statement) :
  events_log s !! eventKey e = None →
  ∃ p1 p2,
    processEvent tz t1 e c1 (healthy s log) = (p1, Return true) ∧
    processEvent tz t2 e c2 p1 = (p2, Return false) ∧
    aggregates (db p2) = aggregates (db p1) ∧
    events_log (db p2) = events_log (db p1) ∧
    sent p2 = sent p1 ++ [InsertEvent].
Proof.
  intros Hnew. rewrite processEvent_healthy, Hnew.
  eexists _, _. split; [reflexivity|].
  rewrite processEvent_healthy. cbn [events_log].
  rewrite lookup_insert_eq. done.
Qed.

Lemma processEvent_twice_witness :
  events_log emptyStore !! eventKey orderCreated1 = None ∧
  ∃ p1 p2,
    processEvent 0 0 orderCreated1 (Some "a") (healthy emptyStore []) = (p1, Return true) ∧
    processEvent 0 5 orderCreated1 (Some "b") p1 = (p2, Return false) ∧
    aggregates (db p2) = aggregates (db p1) ∧
    events_log (db p2) = events_log (db p1) ∧
    sent p2 = sent p1 ++ [InsertEvent].
Proof.
  split; [reflexivity|].
  apply (processEvent_twice 0 0 5 orderCreated1 (Some "a") (Some "b") emptyStore []).
  reflexivity.
Defined.

(** C9: an event of unrecognized type that is not ledgered yet adds exactly
    one row to the ledger and leaves the three aggregate tables as they
    were; the ledger insert is the only statement sent. *)
Theorem unrecognized_event_only_ledgered (tz now : Z) (e : Event)
    (c : option string) (s : Store) (log : list Statement) :
  ¬ recognized (type e) →
  events_log s !! eventKey e = None →
  let p' := fst (processEvent tz now e c (healthy s log)) in
  size (events_log (db p')) = S (size (events_log s)) ∧
  events_log (db p') !! eventKey e = Some (ledgerRow s e c) ∧
  aggregates (db p') = aggregates s ∧
  sent p' = log ++ [InsertEvent].
Proof.
  intros Hun Hnew. rewrite processEvent_healthy, Hnew. cbn.
  pose proof (unrecognized_views e Hun) as (Hd & Hh & Hl).
  unfold statementsOf. rewrite Hd, Hh, Hl. cbn.
  split_and!.
  - by apply map_size_insert_None.
  - by rewrite lookup_insert_eq.
  - by apply unrecognized_aggregated.
  - done.
Qed.

Lemma unrecognized_event_only_ledgered_witness :
  ¬ recognized (type promoApplied) ∧
  events_log emptyStore !! eventKey promoApplied = None ∧
  let p' := fst (processEvent 0 0 promoApplied None (healthy emptyStore [])) in
  size (events_log (db p')) = S (size (events_log emptyStore)) ∧
  events_log (db p') !! eventKey promoApplied
    = Some (ledgerRow emptyStore promoApplied None) ∧
  aggregates (db p') = aggregates emptyStore ∧
  sent p' = [] ++ [InsertEvent].
Proof.
  assert (Hun : ¬ recognized (type promoApplied)) by not_recognized.
  split; [exact Hun|]. split; [reflexivity|].
  apply (unrecognized_event_only_ledgered 0 0 promoApplied None emptyStore []);
    [exact Hun | reflexivity].
Defined.

(** C10: an unrecognized event that is not ledgered yet is answered with
    [true] although no aggregate table changes; and on any pool, healthy or
    not, an answer of [false] means the event's key was already in the
    ledger. *)
Theorem applied_false_iff_duplicate (tz now : Z) (e : Event) (c : option string) :
  (∀ s log, ¬ recognized (type e) → events_log s !! eventKey e = None →
     snd (processEvent tz now e c (healthy s log)) = Return true ∧
     aggregates (db (fst (processEvent tz now e c (healthy s log)))) = aggregates s) ∧
  (∀ p p', processEvent tz now e c p = (p', Return false) →
     is_Some (events_log (db p) !! eventKey e)).
Proof.
  split.
  - intros s log Hun Hnew. rewrite processEvent_healthy, Hnew. cbn.
    split; [done|]. by apply unrecognized_aggregated.
  - intros p p' H. by apply processEvent_false_inv in H as [Hdup _].
Qed.

Lemma applied_false_iff_duplicate_witness :
  snd (processEvent 0 0 promoApplied None (healthy emptyStore [])) = Return true ∧
  aggregates (db (fst (processEvent 0 0 promoApplied None (healthy emptyStore []))))
    = aggregates emptyStore.
Proof.
  apply (proj1 (applied_false_iff_duplicate 0 0 promoApplied None)).
  - not_recognized.
  - reflexivity.
Defined.

(** ** The upsert operations *)

Lemma onConflictUpdate_lookup {R} (merge : R → R → R) (k : Z) (x : R)
    (m : gmap Z R) :
  onConflictUpdate merge k x m !! k =
    Some (match m !! k with None => x | Some r => merge r x end).
Proof.
  unfold onConflictUpdate. destruct (m !! k); by rewrite lookup_insert_eq.
Qed.

Lemma onConflictUpdate_lookup_ne {R} (merge : R → R → R) (k k' : Z) (x : R)
    (m : gmap Z R) :
  k ≠ k' → onConflictUpdate merge k x m !! k' = m !! k'.
Proof.
  intros Hne. unfold onConflictUpdate.
  destruct (m !! k); by rewrite lookup_insert_ne.
Qed.

(** C5: on a healthy pool each upsert returns normally and touches one key
    of one table.  Without a row for the key it creates one holding the
    given increments, fields left out of a daily increment being zero and
    a new product row counting one order; with a row it adds column by
    column, except that a product's [last_ordered_at] is replaced. *)
Theorem upsert_creates_or_adds (s : Store) (log : list Statement) :
  (∀ date inc,
     let '(p', r) := upsertDailyMetrics date inc (healthy s log) in
     let m := daily_metrics (aggregates s) in
     let m' := daily_metrics (aggregates (db p')) in
     r = Return tt ∧
     (m !! date = None →
        m' !! date = Some
          {| orders_created := default 0 (ordersCreated inc);
             orders_confirmed := default 0 (ordersConfirmed inc);
             orders_cancelled := default 0 (ordersCancelled inc);
             orders_shipped := default 0 (ordersShipped inc);
             revenue_confirmed := default 0 (revenueConfirmed inc);
             revenue_cancelled := default 0 (revenueCancelled inc);
             payment_success_count := default 0 (paymentSuccessCount inc);
             payment_failure_count := default 0 (paymentFailureCount inc) |}) ∧
     (∀ row, m !! date = Some row →
        m' !! date = Some
          {| orders_created := orders_created row + default 0 (ordersCreated inc);
             orders_confirmed := orders_confirmed row + default 0 (ordersConfirmed inc);
             orders_cancelled := orders_cancelled row + default 0 (ordersCancelled inc);
             orders_shipped := orders_shipped row + default 0 (ordersShipped inc);
             revenue_confirmed := revenue_confirmed row + default 0 (revenueConfirmed inc);
             revenue_cancelled := revenue_cancelled row + default 0 (revenueCancelled inc);
             payment_success_count :=
               payment_success_count row + default 0 (paymentSuccessCount inc);
             payment_failure_count :=
               payment_failure_count row + default 0 (paymentFailureCount inc) |}) ∧
     (∀ other, other ≠ date → m' !! other = m !! other) ∧
     hourly_order_counts (aggregates (db p')) = hourly_order_counts (aggregates s) ∧
     product_metrics (aggregates (db p')) = product_metrics (aggregates s) ∧
     events_log (db p') = events_log s) ∧
  (∀ bucket orders amount,
     let '(p', r) := upsertHourlyMetrics bucket orders amount (healthy s log) in
     let m := hourly_order_counts (aggregates s) in
     let m' := hourly_order_counts (aggregates (db p')) in
     r = Return tt ∧
     (m !! bucket = None →
        m' !! bucket = Some {| order_count := orders; revenue := amount |}) ∧
     (∀ row, m !! bucket = Some row →
        m' !! bucket = Some {| order_count := order_count row + orders;
                               revenue := revenue row + amount |}) ∧
     (∀ other, other ≠ bucket → m' !! other = m !! other) ∧
     daily_metrics (aggregates (db p')) = daily_metrics (aggregates s) ∧
     product_metrics (aggregates (db p')) = product_metrics (aggregates s) ∧
     events_log (db p') = events_log s) ∧
  (∀ product sold amount now,
     let '(p', r) := upsertProductMetrics product sold amount now (healthy s log) in
     let m := product_metrics (aggregates s) in
     let m' := product_metrics (aggregates (db p')) in
     r = Return tt ∧
     (m !! product = None →
        m' !! product = Some
          {| total_quantity_sold := sold; total_revenue := amount;
             product_order_count := 1; last_ordered_at := Some now |}) ∧
     (∀ row, m !! product = Some row →
        m' !! product = Some
          {| total_quantity_sold := total_quantity_sold row + sold;
             total_revenue := total_revenue row + amount;
             product_order_count := product_order_count row + 1;
             last_ordered_at := Some now |}) ∧
     (∀ other, other ≠ product → m' !! other = m !! other) ∧
     daily_metrics (aggregates (db p')) = daily_metrics (aggregates s) ∧
     hourly_order_counts (aggregates (db p')) = hourly_order_counts (aggregates s) ∧
     events_log (db p') = events_log s).
Proof.
  split_and!; intros;
    unfold upsertDailyMetrics, upsertHourlyMetrics, upsertProductMetrics,
      query, healthy, withAggregates;
    cbn [failAfter db sent aggregates events_log daily_metrics
         hourly_order_counts product_metrics];
    (split_and!; try done;
     [ intros Hk; by rewrite onConflictUpdate_lookup, Hk
     | intros row Hk; by rewrite onConflictUpdate_lookup, Hk
     | intros other Hne; by apply onConflictUpdate_lookup_ne ]).
Qed.

Lemma upsert_creates_or_adds_witness :
  daily_metrics (aggregates emptyStore) !! 19000 = None ∧
  daily_metrics (aggregates (db (fst
    (upsertDailyMetrics 19000
       {| ordersCreated := None; ordersConfirmed := Some 1; ordersCancelled := None;
          ordersShipped := None; revenueConfirmed := Some 7498;
          revenueCancelled := None; paymentSuccessCount := None;
          paymentFailureCount := None |}
       (healthy emptyStore []))))) !! 19000
  = Some {| orders_created := 0; orders_confirmed := 1; orders_cancelled := 0;
            orders_shipped := 0; revenue_confirmed := 7498; revenue_cancelled := 0;
            payment_success_count := 0; payment_failure_count := 0 |}.
Proof.
  split; [reflexivity|].
  pose proof (proj1 (upsert_creates_or_adds emptyStore []) 19000
    {| ordersCreated := None; ordersConfirmed := Some 1; ordersCancelled := None;
       ordersShipped := None; revenueConfirmed := Some 7498;
       revenueCancelled := None; paymentSuccessCount := None;
       paymentFailureCount := None |}) as H.
  cbn in H. destruct H as (_ & Hnew & _). apply Hnew. reflexivity.
Defined.

(** ** Order confirmed *)

Lemma sumOver_cons (f : Item → Z) (p : Z) (i : Item) (its : list Item) :
  sumOver f p (i :: its) =
    if decide (productId i = p) then f i + sumOver f p its else sumOver f p its.
Proof. reflexivity. Qed.

Lemma sumOver_skip (f : Item → Z) (p : Z) (its : list Item) :
  p ∉ productId <$> its → sumOver f p its = 0.
Proof.
  induction its as [|i its IH]; [done|].
  rewrite fmap_cons, not_elem_of_cons. intros [Hne Hrest].
  rewrite sumOver_cons. case_decide; [congruence|]. by apply IH.
Qed.

(** The product table after the loop over the line items, key by key. *)
Lemma upsertItems_lookup (now p : Z) (its : list Item) (m : gmap Z ProductRow) :
  upsertItems now its m !! p =
    if decide (p ∈ productId <$> its)
    then Some (withLineItems now p its (default zeroProduct (m !! p)))
    else m !! p.
Proof.
  revert m. induction its as [|i its IH]; intros m.
  - rewrite fmap_nil, decide_False by apply not_elem_of_nil. done.
  - unfold upsertItems in *. cbn [foldl]. rewrite IH. clear IH.
    rewrite fmap_cons.
    destruct (decide (productId i = p)) as [Heq|Hne].
    + rewrite Heq, onConflictUpdate_lookup.
      rewrite (decide_True (P := p ∈ p :: _)) by apply list_elem_of_here.
      cbn [default]. unfold withLineItems. rewrite !sumOver_cons.
      rewrite !(decide_True (P := productId i = p)) by done.
      case_decide as Hin.
      * f_equal. destruct (m !! p) as [row|];
          unfold withLineItems, productRowOf, mergeProduct, zeroProduct; cbn;
          f_equal; lia.
      * rewrite !(sumOver_skip _ _ _ Hin).
        f_equal. destruct (m !! p) as [row|];
          unfold productRowOf, mergeProduct, zeroProduct; cbn; f_equal; lia.
    + rewrite onConflictUpdate_lookup_ne by done.
      unfold withLineItems. rewrite !sumOver_cons.
      rewrite !(decide_False (P := productId i = p)) by done.
      repeat case_decide; try done.
      * exfalso. apply H0. by apply list_elem_of_further.
      * exfalso. apply elem_of_cons in H0 as [?|?]; [congruence|done].
Qed.

Lemma confirmed_views (e : Event) :
  type e = EVENT_TYPES.ORDER_CONFIRMED →
  dailyOf e = Some
    {| orders_created := 0; orders_confirmed := 1; orders_cancelled := 0;
       orders_shipped := 0; revenue_confirmed := orZero (data e ≫= totalAmount);
       revenue_cancelled := 0; payment_success_count := 0;
       payment_failure_count := 0 |} ∧
  hourlyOf e = Some {| order_count := 0; revenue := orZero (data e ≫= totalAmount) |} ∧
  lineItems e = default [] (data e ≫= items).
Proof.
  intros Hty. unfold dailyOf, hourlyOf, lineItems.
  repeat case_decide; try done; exfalso; clash_types.
Qed.

Lemma addDaily_zero_l (x : DailyRow) : addDaily zeroDaily x = x.
Proof. by destruct x. Qed.

Lemma addHourly_zero_l (x : HourlyRow) : addHourly zeroHourly x = x.
Proof. by destruct x. Qed.

(** A key's row after an additive upsert: the existing row, or the zero
    row, merged with the proposed one. *)
Lemma onConflictUpdate_lookup_default {R} (merge : R → R → R) (zero : R) (k : Z)
    (x : R) (m : gmap Z R) :
  merge zero x = x →
  onConflictUpdate merge k x m !! k = Some (merge (default zero (m !! k)) x).
Proof.
  intros Hz. rewrite onConflictUpdate_lookup.
  destruct (m !! k); simpl; congruence.
Qed.

(** C3: a confirmed order that is not ledgered yet, on a healthy pool, is
    answered with [true]; today's daily row gets one more confirmed order
    and the amount on its confirmed revenue, the hourly row of the current
    bucket gets the amount on its revenue, no other daily or hourly row
    changes; each product with line items gets their quantities, their
    price times quantity and one order per line added, and the processing
    time as [last_ordered_at]; products without line items keep their
    rows, so an absent or empty item list changes no product row. *)
Theorem order_confirmed_increments (tz now : Z) (e : Event) (c : option string)
    (s : Store) (log : list Statement) :
  type e = EVENT_TYPES.ORDER_CONFIRMED →
  events_log s !! eventKey e = None →
  let amount := orZero (data e ≫= totalAmount) in
  let its := default [] (data e ≫= items) in
  let a := aggregates s in
  let a' := aggregates (db (fst (processEvent tz now e c (healthy s log)))) in
  let day := default zeroDaily (daily_metrics a !! today now) in
  let hour := default zeroHourly (hourly_order_counts a !! hourBucket tz now) in
  snd (processEvent tz now e c (healthy s log)) = Return true ∧
  daily_metrics a' !! today now = Some
    {| orders_created := orders_created day;
       orders_confirmed := orders_confirmed day + 1;
       orders_cancelled := orders_cancelled day;
       orders_shipped := orders_shipped day;
       revenue_confirmed := revenue_confirmed day + amount;
       revenue_cancelled := revenue_cancelled day;
       payment_success_count := payment_success_count day;
       payment_failure_count := payment_failure_count day |} ∧
  (∀ d, d ≠ today now → daily_metrics a' !! d = daily_metrics a !! d) ∧
  hourly_order_counts a' !! hourBucket tz now = Some
    {| order_count := order_count hour; revenue := revenue hour + amount |} ∧
  (∀ b, b ≠ hourBucket tz now →
     hourly_order_counts a' !! b = hourly_order_counts a !! b) ∧
  (∀ p, product_metrics a' !! p =
        if decide (p ∈ productId <$> its)
        then Some
          {| total_quantity_sold :=
               total_quantity_sold (default zeroProduct (product_metrics a !! p))
               + sumOver (λ i, orZero (quantity i)) p its;
             total_revenue :=
               total_revenue (default zeroProduct (product_metrics a !! p))
               + sumOver (λ i, orZero (price i) * orZero (quantity i)) p its;
             product_order_count :=
               product_order_count (default zeroProduct (product_metrics a !! p))
               + sumOver (λ _, 1) p its;
             last_ordered_at := Some now |}
        else product_metrics a !! p) ∧
  (its = [] → product_metrics a' = product_metrics a).
Proof.
  intros Hty Hnew amount its a a' day hour.
  subst a'. rewrite processEvent_healthy, Hnew.
  unfold healthy, aggregated.
  destruct (confirmed_views e Hty) as (-> & -> & ->).
  cbn [fst snd db aggregates upsertOpt daily_metrics hourly_order_counts
       product_metrics].
  split_and!.
  - done.
  - rewrite (onConflictUpdate_lookup_default _ zeroDaily) by apply addDaily_zero_l.
    fold a day amount. unfold addDaily. cbn. f_equal. f_equal; lia.
  - intros d Hd. by apply onConflictUpdate_lookup_ne.
  - rewrite (onConflictUpdate_lookup_default _ zeroHourly) by apply addHourly_zero_l.
    fold a hour amount. unfold addHourly. cbn. f_equal. f_equal; lia.
  - intros b Hb. by apply onConflictUpdate_lookup_ne.
  - intros p. apply upsertItems_lookup.
  - fold its. by intros ->.
Qed.

Lemma order_confirmed_increments_witness :
  type orderConfirmed2 = EVENT_TYPES.ORDER_CONFIRMED ∧
  events_log emptyStore !! eventKey orderConfirmed2 = None ∧
  let a' := aggregates (db (fst
    (processEvent 0 1000 orderConfirmed2 None (healthy emptyStore [])))) in
  daily_metrics a' !! 0 = Some
    {| orders_created := 0; orders_confirmed := 1; orders_cancelled := 0;
       orders_shipped := 0; revenue_confirmed := 7498; revenue_cancelled := 0;
       payment_success_count := 0; payment_failure_count := 0 |} ∧
  hourly_order_counts a' !! 0 = Some {| order_count := 0; revenue := 7498 |} ∧
  product_metrics a' !! 1 = Some
    {| total_quantity_sold := 2; total_revenue := 5998; product_order_count := 1;
       last_ordered_at := Some 1000 |} ∧
  product_metrics a' !! 3 = Some
    {| total_quantity_sold := 1; total_revenue := 1500; product_order_count := 1;
       last_ordered_at := Some 1000 |} ∧
  product_metrics a' !! 2 = None.
Proof.
  split; [reflexivity|]. split; [reflexivity|].
  destruct (order_confirmed_increments 0 1000 orderConfirmed2 None emptyStore []
              eq_refl eq_refl) as (_ & Hd & _ & Hh & _ & Hp & _).
  cbv zeta. split_and!.
  - exact Hd.
  - exact Hh.
  - exact (Hp 1).
  - exact (Hp 3).
  - exact (Hp 2).
Defined.

(** ** Missing numeric fields *)

Lemma cancelled_views (e : Event) :
  type e = EVENT_TYPES.ORDER_CANCELLED →
  dailyOf e = Some
    {| orders_created := 0; orders_confirmed := 0; orders_cancelled := 1;
       orders_shipped := 0; revenue_confirmed := 0;
       revenue_cancelled := orZero (data e ≫= totalAmount);
       payment_success_count := 0; payment_failure_count := 0 |}.
Proof.
  intros Hty. unfold dailyOf.
  repeat case_decide; try done; exfalso; clash_types.
Qed.

Lemma sumOver_zero (f : Item → Z) (p : Z) (its : list Item) :
  (∀ i, i ∈ its → productId i = p → f i = 0) → sumOver f p its = 0.
Proof.
  induction its as [|i its IH]; intros Hall; [done|].
  rewrite sumOver_cons, IH.
  - case_decide; [|done]. rewrite Hall; [done|apply list_elem_of_here|done].
  - intros j Hj. apply Hall. by apply list_elem_of_further.
Qed.

(** C8: an event that is not ledgered yet is answered with [true] on a
    healthy pool whichever of its numeric fields are missing.  A confirmed
    order without total adds one confirmed order and zero to the confirmed
    revenue of the day and zero to the revenue of the hour; a cancelled
    order without total adds one cancelled order and zero to the cancelled
    revenue; line items without price or quantity add zero to their
    product's revenue, and line items without quantity add zero to its
    quantity sold. *)
Theorem missing_fields_count_as_zero (tz now : Z) (e : Event) (c : option string)
    (s : Store) (log : list Statement) :
  events_log s !! eventKey e = None →
  let a := aggregates s in
  let a' := aggregates (db (fst (processEvent tz now e c (healthy s log)))) in
  let day := default zeroDaily (daily_metrics a !! today now) in
  let hour := default zeroHourly (hourly_order_counts a !! hourBucket tz now) in
  snd (processEvent tz now e c (healthy s log)) = Return true ∧
  (type e = EVENT_TYPES.ORDER_CONFIRMED → data e ≫= totalAmount = None →
     daily_metrics a' !! today now = Some
       {| orders_created := orders_created day;
          orders_confirmed := orders_confirmed day + 1;
          orders_cancelled := orders_cancelled day;
          orders_shipped := orders_shipped day;
          revenue_confirmed := revenue_confirmed day + 0;
          revenue_cancelled := revenue_cancelled day;
          payment_success_count := payment_success_count day;
          payment_failure_count := payment_failure_count day |} ∧
     hourly_order_counts a' !! hourBucket tz now = Some
       {| order_count := order_count hour; revenue := revenue hour + 0 |}) ∧
  (type e = EVENT_TYPES.ORDER_CANCELLED → data e ≫= totalAmount = None →
     daily_metrics a' !! today now = Some
       {| orders_created := orders_created day;
          orders_confirmed := orders_confirmed day;
          orders_cancelled := orders_cancelled day + 1;
          orders_shipped := orders_shipped day;
          revenue_confirmed := revenue_confirmed day;
          revenue_cancelled := revenue_cancelled day + 0;
          payment_success_count := payment_success_count day;
          payment_failure_count := payment_failure_count day |}) ∧
  (type e = EVENT_TYPES.ORDER_CONFIRMED →
   ∀ p row', product_metrics a' !! p = Some row' →
     let old := default zeroProduct (product_metrics a !! p) in
     let mine i := i ∈ default [] (data e ≫= items) ∧ productId i = p in
     ((∀ i, mine i → price i = None ∨ quantity i = None) →
        total_revenue row' = total_revenue old + 0) ∧
     ((∀ i, mine i → quantity i = None) →
        total_quantity_sold row' = total_quantity_sold old + 0)).
Proof.
  intros Hnew a a' day hour.
  subst a'. rewrite processEvent_healthy, Hnew.
  unfold healthy, aggregated.
  cbn [fst snd db aggregates daily_metrics hourly_order_counts product_metrics].
  split_and!.
  - done.
  - intros Hty Hamt. destruct (confirmed_views e Hty) as (-> & -> & _).
    rewrite Hamt. cbn [upsertOpt orZero]. split.
    + rewrite (onConflictUpdate_lookup_default _ zeroDaily) by apply addDaily_zero_l.
      fold a day. unfold addDaily. cbn. f_equal. f_equal; lia.
    + rewrite (onConflictUpdate_lookup_default _ zeroHourly) by apply addHourly_zero_l.
      fold a hour. unfold addHourly. cbn. f_equal. f_equal; lia.
  - intros Hty Hamt. rewrite (cancelled_views e Hty).
    rewrite Hamt. cbn [upsertOpt orZero].
    rewrite (onConflictUpdate_lookup_default _ zeroDaily) by apply addDaily_zero_l.
    fold a day. unfold addDaily. cbn. f_equal. f_equal; lia.
  - intros Hty p row'. destruct (confirmed_views e Hty) as (_ & _ & ->).
    rewrite upsertItems_lookup. fold a. intros Hrow.
    set (old := default zeroProduct (product_metrics a !! p)) in *.
    assert (Hcase :
      row' = withLineItems now p (default [] (data e ≫= items)) old ∨
      (row' = old ∧ p ∉ productId <$> default [] (data e ≫= items))).
    { case_decide as Hin.
      - left. congruence.
      - right. subst old. rewrite Hrow. done. }
    split.
    + intros Hmiss.
      destruct Hcase as [->|[-> _]]; [|lia]. cbn. f_equal.
      apply sumOver_zero. intros i Hi Hp.
      destruct (Hmiss i (conj Hi Hp)) as [-> | ->]; cbn; lia.
    + intros Hmiss.
      destruct Hcase as [->|[-> _]]; [|lia]. cbn. f_equal.
      apply sumOver_zero. intros i Hi Hp. by rewrite (Hmiss i (conj Hi Hp)).
Qed.

Lemma missing_fields_count_as_zero_witness :
  events_log emptyStore !! eventKey orderConfirmedBare = None ∧
  type orderConfirmedBare = EVENT_TYPES.ORDER_CONFIRMED ∧
  data orderConfirmedBare ≫= totalAmount = None ∧
  let r := processEvent 0 1000 orderConfirmedBare None (healthy emptyStore []) in
  snd r = Return true ∧
  daily_metrics (aggregates (db (fst r))) !! 0 = Some
    {| orders_created := 0; orders_confirmed := 1; orders_cancelled := 0;
       orders_shipped := 0; revenue_confirmed := 0; revenue_cancelled := 0;
       payment_success_count := 0; payment_failure_count := 0 |} ∧
  hourly_order_counts (aggregates (db (fst r))) !! 0
    = Some {| order_count := 0; revenue := 0 |}.
Proof.
  split; [reflexivity|]. split; [reflexivity|]. split; [reflexivity|].
  destruct (missing_fields_count_as_zero 0 1000 orderConfirmedBare None emptyStore []
              eq_refl) as (Hr & Hc & _).
  destruct (Hc eq_refl eq_refl) as [Hd Hh].
  cbv zeta. split_and!; [exact Hr | exact Hd | exact Hh].
Defined.

(** ** Order of processing *)

Lemma processInOrder_healthy (tz t1 t2 : Z) (e1 e2 : Event) (c1 c2 : option string)
    (s : Store) (log : list Statement) :
  db (fst (processInOrder tz t1 t2 e1 e2 c1 c2 (healthy s log)))
  = applied tz t2 e2 c2 (applied tz t1 e1 c1 s).
Proof.
  unfold processInOrder. unfold mbind at 1. unfold Async_bind at 1.
  rewrite processEvent_healthy. unfold applied at 2.
  destruct (events_log s !! eventKey e1);
    unfold mbind, Async_bind; rewrite processEvent_healthy; unfold applied;
    match goal with |- context [events_log ?s' !! eventKey e2] =>
      destruct (events_log s' !! eventKey e2) end; done.
Qed.

Lemma onConflictUpdate_comm {R} (merge : R → R → R) (k : Z) (x y : R)
    (m : gmap Z R) :
  merge x y = merge y x →
  (∀ r, merge (merge r x) y = merge (merge r y) x) →
  onConflictUpdate merge k y (onConflictUpdate merge k x m)
  = onConflictUpdate merge k x (onConflictUpdate merge k y m).
Proof.
  intros Hxy Hr. apply map_eq. intros j.
  destruct (decide (k = j)) as [<-|Hne].
  - rewrite !onConflictUpdate_lookup. destruct (m !! k); by rewrite ?Hr, ?Hxy.
  - by rewrite !onConflictUpdate_lookup_ne.
Qed.

Lemma upsertOpt_comm {R} (merge : R → R → R) (k : Z) (x y : option R)
    (m : gmap Z R) :
  (∀ a b, merge a b = merge b a) →
  (∀ r a b, merge (merge r a) b = merge (merge r b) a) →
  upsertOpt merge k y (upsertOpt merge k x m)
  = upsertOpt merge k x (upsertOpt merge k y m).
Proof.
  intros Hc Ha. destruct x as [x|], y as [y|]; simpl; try done.
  by apply onConflictUpdate_comm.
Qed.

Lemma addDaily_comm (a b : DailyRow) : addDaily a b = addDaily b a.
Proof. unfold addDaily. f_equal; lia. Qed.

Lemma addDaily_swap (r a b : DailyRow) :
  addDaily (addDaily r a) b = addDaily (addDaily r b) a.
Proof. unfold addDaily. cbn. f_equal; lia. Qed.

Lemma addHourly_comm (a b : HourlyRow) : addHourly a b = addHourly b a.
Proof. unfold addHourly. f_equal; lia. Qed.

Lemma addHourly_swap (r a b : HourlyRow) :
  addHourly (addHourly r a) b = addHourly (addHourly r b) a.
Proof. unfold addHourly. cbn. f_equal; lia. Qed.

Lemma totals_eq (a b c a' b' c' : Z) :
  a = a' → b = b' → c = c' → Some (a, b, c) = Some (a', b', c').
Proof. congruence. Qed.

(** The additive columns of the product table do not depend on the order
    in which two item lists are merged, nor on the instants. *)
Lemma upsertItems_totals_comm (t1 t2 t1' t2' : Z) (its1 its2 : list Item)
    (m : gmap Z ProductRow) :
  totals <$> upsertItems t2 its2 (upsertItems t1 its1 m)
  = totals <$> upsertItems t2' its1 (upsertItems t1' its2 m).
Proof.
  apply map_eq. intros p. rewrite !lookup_fmap, !upsertItems_lookup.
  destruct (decide (p ∈ productId <$> its1)), (decide (p ∈ productId <$> its2)),
    (m !! p) as [row|]; cbn; try done;
    unfold totals, withLineItems; cbn; apply totals_eq; lia.
Qed.

(** C4, as amended: two events with different keys, handled on a healthy
    pool at two instants of the same day and the same hour bucket, leave
    the same daily table, the same hourly table and the same quantity,
    revenue and order count for every product, whichever is handled
    first. *)
Theorem same_bucket_increments_commute (tz t1 t2 : Z) (e1 e2 : Event)
    (c1 c2 : option string) (s : Store) (log : list Statement) :
  eventKey e1 ≠ eventKey e2 →
  today t1 = today t2 →
  hourBucket tz t1 = hourBucket tz t2 →
  let a12 := aggregates (db (fst (processInOrder tz t1 t2 e1 e2 c1 c2 (healthy s log)))) in
  let a21 := aggregates (db (fst (processInOrder tz t1 t2 e2 e1 c2 c1 (healthy s log)))) in
  daily_metrics a12 = daily_metrics a21 ∧
  hourly_order_counts a12 = hourly_order_counts a21 ∧
  totals <$> product_metrics a12 = totals <$> product_metrics a21.
Proof.
  intros Hkeys Hday Hhour. cbv zeta. rewrite !processInOrder_healthy.
  unfold applied.
  destruct (events_log s !! eventKey e1) as [r1|] eqn:H1,
           (events_log s !! eventKey e2) as [r2|] eqn:H2;
    cbn [events_log aggregates];
    rewrite ?lookup_insert_ne by done; rewrite ?H1, ?H2;
    cbn [events_log aggregates]; try done;
    unfold aggregated; cbn [daily_metrics hourly_order_counts product_metrics];
    rewrite <- Hday, <- Hhour; split_and!; try done.
  - apply (upsertItems_totals_comm t1 t2 t1 t1 [] (lineItems e2)).
  - apply (upsertItems_totals_comm t1 t1 t1 t2 (lineItems e1) []).
  - apply upsertOpt_comm; [apply addDaily_comm | apply addDaily_swap].
  - apply upsertOpt_comm; [apply addHourly_comm | apply addHourly_swap].
  - apply upsertItems_totals_comm.
Qed.

Lemma same_bucket_increments_commute_witness :
  eventKey orderConfirmed2 ≠ eventKey orderCreated1 ∧
  today 1000 = today 2000 ∧
  hourBucket 0 1000 = hourBucket 0 2000 ∧
  let a12 := aggregates (db (fst (processInOrder 0 1000 2000
               orderConfirmed2 orderCreated1 None None (healthy emptyStore [])))) in
  let a21 := aggregates (db (fst (processInOrder 0 1000 2000
               orderCreated1 orderConfirmed2 None None (healthy emptyStore [])))) in
  daily_metrics a12 = daily_metrics a21 ∧
  hourly_order_counts a12 = hourly_order_counts a21 ∧
  totals <$> product_metrics a12 = totals <$> product_metrics a21.
Proof.
  assert (Hk : eventKey orderConfirmed2 ≠ eventKey orderCreated1) by discriminate.
  split; [exact Hk|]. split; [reflexivity|]. split; [reflexivity|].
  apply (same_bucket_increments_commute 0 1000 2000 orderConfirmed2 orderCreated1
           None None emptyStore [] Hk); reflexivity.
Defined.

(** C4 as stated fails on the code, in two ways.  Handled on two
    different days, an order created and an order shipped land on swapped
    daily rows; handled a millisecond apart, a confirmed order and an
    order created leave different [last_ordered_at] values. *)
Lemma processing_order_matters :
  aggregates (db (fst (processInOrder 0 0 86400000 orderCreated1 orderShipped4
                         None None (healthy emptyStore []))))
  ≠ aggregates (db (fst (processInOrder 0 0 86400000 orderShipped4 orderCreated1
                           None None (healthy emptyStore [])))) ∧
  aggregates (db (fst (processInOrder 0 0 1 orderConfirmed2 orderCreated1
                         None None (healthy emptyStore []))))
  ≠ aggregates (db (fst (processInOrder 0 0 1 orderCreated1 orderConfirmed2
                           None None (healthy emptyStore [])))).
Proof.
  split; intros H.
  - apply (f_equal (λ a, orders_created <$> daily_metrics a !! 0)) in H.
    vm_compute in H. discriminate.
  - apply (f_equal (λ a, last_ordered_at <$> product_metrics a !! 1)) in H.
    vm_compute in H. discriminate.
Qed.

(** ** The correlation identifier handed to the processor *)

Lemma headerCorrelationId_cases (message : Message) :
  match headers message with
  | None => headerCorrelationId message = None
  | Some hs =>
      (∀ v, hs !! "x-correlation-id" = Some v → truthy v = true →
            headerCorrelationId message = Some (headerText v)) ∧
      (∀ v, usable (hs !! "x-correlation-id") = false →
            hs !! "correlationId" = Some v → truthy v = true →
            headerCorrelationId message = Some (headerText v)) ∧
      (usable (hs !! "x-correlation-id") = false →
       usable (hs !! "correlationId") = false →
       headerCorrelationId message = None)
  end.
Proof.
  unfold headerCorrelationId. destruct (headers message) as [hs|]; [|done].
  unfold orElse, usable.
  destruct (hs !! "x-correlation-id") as [v1|];
    [destruct (truthy v1) eqn:Hv1|];
    (split_and!; [intros v [= <-] Hv | intros v Hu1 Hv2 Hv | intros Hu1 Hu2]);
    try congruence; rewrite ?Hv1; try done.
  - by rewrite Hv2, Hv.
  - destruct (hs !! "correlationId") as [v2|]; [|done]. by rewrite Hu2.
  - by rewrite Hv2, Hv.
  - destruct (hs !! "correlationId") as [v2|]; [|done]. by rewrite Hu2.
Qed.

(** C6, as amended: whenever [eachMessage] calls the handler, the
    correlation identifier it passes is the text of the
    [x-correlation-id] header if that is truthy, else of the
    [correlationId] header if that is truthy, else [null]; the payload's
    own identifier is never passed and none is made up.  The event given
    to the validator carries the header identifier, when that is a
    non-empty string, in place of its own. *)
Theorem handler_gets_header_id_or_null (validateEvent : ParsedEvent → option Event)
    (message : Message) (data : Event) (cid : option string) :
  handlerCall validateEvent message = Some (data, cid) →
  (∀ hs v, headers message = Some hs →
     hs !! "x-correlation-id" = Some v → truthy v = true →
     cid = Some (headerText v)) ∧
  (∀ hs v, headers message = Some hs →
     usable (hs !! "x-correlation-id") = false →
     hs !! "correlationId" = Some v → truthy v = true →
     cid = Some (headerText v)) ∧
  ((∀ hs, headers message = Some hs →
      usable (hs !! "x-correlation-id") = false ∧
      usable (hs !! "correlationId") = false) →
   cid = None) ∧
  (∃ event, value message = Some (Document event) ∧
     validateEvent
       {| payloadCorrelationId :=
            match cid with
            | Some c => if decide (c = "") then payloadCorrelationId event else Some c
            | None => payloadCorrelationId event
            end;
          payload := payload event |} = Some data).
Proof.
  unfold handlerCall.
  destruct (value message) as [[text|event]|]; try discriminate.
  destruct (validateEvent (injected message event)) as [d|] eqn:Hvalid;
    [|discriminate].
  intros [= -> <-].
  pose proof (headerCorrelationId_cases message) as Hcases.
  split_and!.
  - intros hs v Hhs Hv Ht. rewrite Hhs in Hcases.
    destruct Hcases as (H1 & _ & _). by apply H1.
  - intros hs v Hhs Hu Hv Ht. rewrite Hhs in Hcases.
    destruct Hcases as (_ & H2 & _). by apply H2.
  - intros Hnone. destruct (headers message) as [hs|] eqn:Hhs; [|done].
    destruct (Hnone hs eq_refl) as [Hu1 Hu2].
    destruct Hcases as (_ & _ & H3). by apply H3.
  - exists event. split; [done|]. rewrite <- Hvalid. f_equal.
    unfold injected. destruct (headerCorrelationId message) as [c|];
      [case_decide|]; by destruct event.
Qed.

Lemma handler_gets_header_id_or_null_witness :
  handlerCall acceptAll headerIdMessage = Some (orderCreated1, Some "trace-7") ∧
  (∀ hs v, headers headerIdMessage = Some hs →
     hs !! "x-correlation-id" = Some v → truthy v = true →
     Some "trace-7" = Some (headerText v)).
Proof.
  assert (Hcall : handlerCall acceptAll headerIdMessage
                  = Some (orderCreated1, Some "trace-7")) by reflexivity.
  split; [exact Hcall|].
  exact (proj1 (handler_gets_header_id_or_null acceptAll headerIdMessage
                  orderCreated1 (Some "trace-7") Hcall)).
Defined.

(** C6 as stated fails on the code: without headers the handler is called
    with [null], whether or not the payload has an identifier of its own,
    and [null] is what [processEvent] then writes to the ledger. *)
Lemma no_header_passes_null :
  handlerCall acceptAll payloadIdMessage = Some (orderCreated1, None) ∧
  handlerCall acceptAll plainMessage = Some (orderCreated1, None) ∧
  correlation_id <$>
    events_log (db (fst (eachMessage acceptAll (processEvent 0 0) payloadIdMessage
                           (healthy emptyStore []))))
      !! eventKey orderCreated1
  = Some None.
Proof. split_and!; reflexivity. Qed.

(** * Further properties of the code *)

Local Open Scope Z_scope.

(** ** Rejected statements *)

Lemma then_unit (m : Async unit) (p : Pool) : (m;; mret tt) p = m p.
Proof.
  unfold mbind, Async_bind, mret, Async_ret.
  by destruct (m p) as [q [[]|]].
Qed.

Lemma forOf_items_send (now : Z) (its : list Item) (p : Pool) :
  forOf its (λ item,
      upsertProductMetrics (productId item) (orZero (quantity item))
        (orZero (price item) * orZero (quantity item)) now) p
  = forOf (productWrite now <$> its) send p.
Proof.
  revert p. induction its as [|item its IH]; intros p; [done|].
  rewrite fmap_cons. cbn [forOf]. unfold mbind, Async_bind.
  change (send (productWrite now item) p) with
    (upsertProductMetrics (productId item) (orZero (quantity item))
       (orZero (price item) * orZero (quantity item)) now p).
  destruct (upsertProductMetrics _ _ _ _ p) as [q [[]|]]; [apply IH|done].
Qed.

Lemma forOf_app {A} (l1 l2 : list A) (body : A → Async unit) (p : Pool) :
  forOf (l1 ++ l2) body p = (forOf l1 body;; forOf l2 body) p.
Proof.
  revert p. induction l1 as [|x l1 IH]; intros p; [done|].
  cbn [app forOf]. unfold mbind, Async_bind in *.
  destruct (body x p) as [q [[]|]]; [apply IH|done].
Qed.

(** What the statements of a list do on any pool: with [n] statements
    still to be accepted, the first [n] are applied and the next one is
    rejected, or all are applied when the list is not longer than [n]. *)
Lemma forOf_send_run (ws : list Write) (s : Store) (log : list Statement)
    (fa : option nat) :
  forOf ws send {| db := s; sent := log; failAfter := fa |} =
    match fa with
    | Some n =>
        if decide (n < length ws)%nat
        then ({| db := withAggregates s (applyWrites (take n ws) (aggregates s));
                 sent := log ++ (take (S n) ws).*1; failAfter := None |}, Throw)
        else ({| db := withAggregates s (applyWrites ws (aggregates s));
                 sent := log ++ ws.*1;
                 failAfter := Some (n - length ws)%nat |}, Return tt)
    | None =>
        ({| db := withAggregates s (applyWrites ws (aggregates s));
            sent := log ++ ws.*1; failAfter := None |}, Return tt)
    end.
Proof.
  revert s log fa. induction ws as [|w ws IH]; intros s log fa.
  - destruct s as [ev a], fa as [n|]; cbn; rewrite ?app_nil_r.
    + rewrite decide_False by lia. by rewrite Nat.sub_0_r.
    + done.
  - cbn [forOf]. unfold mbind, Async_bind. unfold send at 1, query.
    cbn [failAfter db sent fst snd].
    destruct fa as [[|n]|].
    + destruct s as [ev a]. cbn. rewrite decide_True by lia. done.
    + cbn [fmap option_fmap option_map pred]. rewrite IH.
      destruct s as [ev a]. unfold withAggregates. cbn [events_log aggregates].
      cbn [length]. destruct (decide (n < length ws)%nat).
      * rewrite decide_True by lia. cbn. by rewrite <- app_assoc.
      * rewrite decide_False by lia. cbn. by rewrite <- app_assoc.
    + cbn [fmap option_fmap option_map]. rewrite IH.
      destruct s as [ev a]. unfold withAggregates. cbn. by rewrite <- app_assoc.
Qed.

Lemma forOf_one (w : Write) (p : Pool) : forOf [w] send p = send w p.
Proof. cbn [forOf]. apply then_unit. Qed.

Lemma forOf_two (w1 w2 : Write) (p : Pool) :
  forOf [w1; w2] send p = (send w1;; send w2) p.
Proof.
  cbn [forOf]. unfold mbind, Async_bind.
  destruct (send w1 p) as [q [[]|]]; [apply then_unit|done].
Qed.

(** The part of [processEvent] after the ledger insert is the sequence
    [writesOf], on any pool. *)
Lemma processEvent_run (tz now : Z) (e : Event) (c : option string) (p : Pool) :
  processEvent tz now e c p =
    match failAfter p with
    | Some O =>
        ({| db := db p; sent := sent p ++ [InsertEvent]; failAfter := None |}, Throw)
    | fa =>
        match events_log (db p) !! eventKey e with
        | Some _ =>
            ({| db := db p; sent := sent p ++ [InsertEvent];
                failAfter := pred <$> fa |}, Return false)
        | None =>
            match forOf (writesOf tz now e) send
                    {| db := {| events_log :=
                                  <[eventKey e := ledgerRow (db p) e c]>
                                    (events_log (db p));
                                aggregates := aggregates (db p) |};
                       sent := sent p ++ [InsertEvent];
                       failAfter := pred <$> fa |} with
            | (q, Return _) => (q, Return true)
            | (q, Throw) => (q, Throw)
            end
        end
    end.
Proof.
  assert (Hbody : ∀ q,
    (if decide (type e = EVENT_TYPES.ORDER_CREATED) then
       upsertDailyMetrics (today now)
         {| ordersCreated := Some 1; ordersConfirmed := None;
            ordersCancelled := None; ordersShipped := None;
            revenueConfirmed := None; revenueCancelled := None;
            paymentSuccessCount := None; paymentFailureCount := None |};;
       upsertHourlyMetrics (hourBucket tz now) 1 0
     else if decide (type e = EVENT_TYPES.ORDER_CONFIRMED) then
       upsertDailyMetrics (today now)
         {| ordersCreated := None; ordersConfirmed := Some 1;
            ordersCancelled := None; ordersShipped := None;
            revenueConfirmed := Some (orZero (data e ≫= totalAmount));
            revenueCancelled := None;
            paymentSuccessCount := None; paymentFailureCount := None |};;
       upsertHourlyMetrics (hourBucket tz now) 0 (orZero (data e ≫= totalAmount));;
       match data e ≫= items with
       | Some its =>
           forOf its (λ item,
             upsertProductMetrics (productId item) (orZero (quantity item))
               (orZero (price item) * orZero (quantity item)) now)
       | None => mret tt
       end
     else if decide (type e = EVENT_TYPES.ORDER_CANCELLED) then
       upsertDailyMetrics (today now)
         {| ordersCreated := None; ordersConfirmed := None;
            ordersCancelled := Some 1; ordersShipped := None;
            revenueConfirmed := None;
            revenueCancelled := Some (orZero (data e ≫= totalAmount));
            paymentSuccessCount := None; paymentFailureCount := None |}
     else if decide (type e = EVENT_TYPES.ORDER_SHIPPED) then
       upsertDailyMetrics (today now)
         {| ordersCreated := None; ordersConfirmed := None;
            ordersCancelled := None; ordersShipped := Some 1;
            revenueConfirmed := None; revenueCancelled := None;
            paymentSuccessCount := None; paymentFailureCount := None |}
     else if decide (type e = EVENT_TYPES.PAYMENT_AUTHORIZED) then
       upsertDailyMetrics (today now)
         {| ordersCreated := None; ordersConfirmed := None;
            ordersCancelled := None; ordersShipped := None;
            revenueConfirmed := None; revenueCancelled := None;
            paymentSuccessCount := Some 1; paymentFailureCount := None |}
     else if decide (type e = EVENT_TYPES.PAYMENT_FAILED) then
       upsertDailyMetrics (today now)
         {| ordersCreated := None; ordersConfirmed := None;
            ordersCancelled := None; ordersShipped := None;
            revenueConfirmed := None; revenueCancelled := None;
            paymentSuccessCount := None; paymentFailureCount := Some 1 |}
     else mret tt) q
    = forOf (writesOf tz now e) send q).
  { intros q. unfold writesOf, dailyOf, hourlyOf, lineItems.
    repeat case_decide; try (exfalso; clash_types);
      cbn [app fmap list_fmap]; rewrite ?forOf_one, ?forOf_two; try done.
    cbn [forOf]. unfold mbind, Async_bind.
    change (send (dailyWrite ?d ?r) q) with
      (upsertDailyMetrics (today now)
         {| ordersCreated := None; ordersConfirmed := Some 1;
            ordersCancelled := None; ordersShipped := None;
            revenueConfirmed := Some (orZero (data e ≫= totalAmount));
            revenueCancelled := None;
            paymentSuccessCount := None; paymentFailureCount := None |} q).
    destruct (upsertDailyMetrics _ _ q) as [q1 [[]|]]; [|done].
    change (send (hourlyWrite ?b ?r) q1) with
      (upsertHourlyMetrics (hourBucket tz now) 0 (orZero (data e ≫= totalAmount)) q1).
    destruct (upsertHourlyMetrics _ _ _ q1) as [q2 [[]|]]; [|done].
    destruct (option_bind _ _ items (data e)) as [its|]; cbn [default]; [|done].
    apply forOf_items_send. }
  unfold processEvent. unfold mbind at 1. unfold Async_bind at 1.
  unfold insertEvent, query, eventKey, ledgerRow.
  destruct (failAfter p) as [[|n]|]; [done| |];
    (destruct (events_log (db p) !! (type e, orderId e)) as [row|]; [done|];
     cbn beta iota; unfold mbind, Async_bind; rewrite Hbody;
     match goal with |- context [forOf ?ws send ?q] =>
       destruct (forOf ws send q) as [q' [[]|]] end; done).
Qed.

Lemma writesOf_statements (tz now : Z) (e : Event) :
  (writesOf tz now e).*1 = statementsOf e.
Proof.
  unfold writesOf, statementsOf. rewrite !fmap_app. f_equal; [|f_equal].
  - by destruct (dailyOf e).
  - by destruct (hourlyOf e).
  - induction (lineItems e) as [|i its IH]; [done|]. cbn. by f_equal.
Qed.

Lemma applyWrites_products (now : Z) (its : list Item) (a : Aggregates) :
  applyWrites (productWrite now <$> its) a =
    {| daily_metrics := daily_metrics a;
       hourly_order_counts := hourly_order_counts a;
       product_metrics := upsertItems now its (product_metrics a) |}.
Proof.
  revert a. induction its as [|i its IH]; intros a; [by destruct a|].
  unfold applyWrites in *. cbn [fmap list_fmap foldl]. rewrite IH. done.
Qed.

Lemma applyWrites_all (tz now : Z) (e : Event) (a : Aggregates) :
  applyWrites (writesOf tz now e) a = aggregated tz now e a.
Proof.
  pose proof (applyWrites_products now (lineItems e)) as Hp.
  unfold writesOf, aggregated, applyWrites in *. rewrite !foldl_app, Hp.
  destruct a as [d h m], (dailyOf e), (hourlyOf e); done.
Qed.

(** X1: a rejected statement undoes nothing.  For an event that is not
    ledgered yet, on a pool that accepts [k] more statements: with [k = 0]
    the ledger insert is rejected and the store is unchanged; with
    [k = n + 1] and more than [n] upserts to send, the call throws with
    the ledger row and the first [n] upserts applied and nothing sent
    after the rejected one; otherwise it answers [true] with every upsert
    applied. *)
Theorem rejection_keeps_earlier_statements (tz now : Z) (e : Event)
    (c : option string) (s : Store) (log : list Statement) :
  events_log s !! eventKey e = None →
  let ledgered a :=
    {| events_log := <[eventKey e := ledgerRow s e c]> (events_log s);
       aggregates := a |} in
  processEvent tz now e c {| db := s; sent := log; failAfter := Some 0%nat |}
    = (healthy s (log ++ [InsertEvent]), Throw) ∧
  (∀ n, (n < length (writesOf tz now e))%nat →
     processEvent tz now e c {| db := s; sent := log; failAfter := Some (S n) |}
     = (healthy (ledgered (applyWrites (take n (writesOf tz now e)) (aggregates s)))
          (log ++ InsertEvent :: take (S n) (statementsOf e)), Throw)) ∧
  (∀ n, (length (writesOf tz now e) ≤ n)%nat →
     processEvent tz now e c {| db := s; sent := log; failAfter := Some (S n) |}
     = ({| db := ledgered (aggregated tz now e (aggregates s));
           sent := log ++ InsertEvent :: statementsOf e;
           failAfter := Some (n - length (writesOf tz now e))%nat |}, Return true)).
Proof.
  intros Hnew ledgered. split_and!.
  - by rewrite processEvent_run.
  - intros n Hn. rewrite processEvent_run. cbn [failAfter db sent].
    rewrite Hnew. cbn [fmap option_fmap option_map pred].
    rewrite forOf_send_run, decide_True by done.
    unfold healthy, ledgered, withAggregates. cbn [events_log aggregates].
    by rewrite <- app_assoc, fmap_take, writesOf_statements.
  - intros n Hn. rewrite processEvent_run. cbn [failAfter db sent].
    rewrite Hnew. cbn [fmap option_fmap option_map pred].
    rewrite forOf_send_run, decide_False by lia.
    unfold ledgered, withAggregates. cbn [events_log aggregates].
    by rewrite <- app_assoc, writesOf_statements, applyWrites_all.
Qed.

Lemma rejection_keeps_earlier_statements_witness :
  events_log emptyStore !! eventKey orderConfirmed2 = None ∧
  (2 < length (writesOf 0 1000 orderConfirmed2))%nat ∧
  let r := processEvent 0 1000 orderConfirmed2 None
             {| db := emptyStore; sent := []; failAfter := Some 3%nat |} in
  snd r = Throw ∧
  sent (fst r) = [InsertEvent; UpsertDaily; UpsertHourly; UpsertProduct] ∧
  revenue_confirmed <$> daily_metrics (aggregates (db (fst r))) !! 0 = Some 7498 ∧
  product_metrics (aggregates (db (fst r))) = ∅.
Proof.
  assert (Hn : (2 < length (writesOf 0 1000 orderConfirmed2))%nat)
    by (vm_compute; lia).
  split; [reflexivity|]. split; [exact Hn|].
  destruct (rejection_keeps_earlier_statements 0 1000 orderConfirmed2 None
              emptyStore [] eq_refl) as (_ & Hpart & _).
  cbv zeta. rewrite (Hpart 2%nat Hn). split_and!; reflexivity.
Defined.

(** The store [processEvent] leaves on any pool: the one it found, or the
    ledger row plus some first upserts of the event. *)
Lemma processEvent_db_cases (tz now : Z) (e : Event) (c : option string) (p : Pool) :
  db (fst (processEvent tz now e c p)) = db p ∨
  (events_log (db p) !! eventKey e = None ∧
   ∃ n, db (fst (processEvent tz now e c p)) =
          {| events_log := <[eventKey e := ledgerRow (db p) e c]> (events_log (db p));
             aggregates :=
               applyWrites (take n (writesOf tz now e)) (aggregates (db p)) |}).
Proof.
  rewrite processEvent_run.
  destruct (failAfter p) as [[|k]|]; [by left| |];
    (destruct (events_log (db p) !! eventKey e) as [row|] eqn:Hrow; [by left|];
     right; split; [done|];
     cbn [fmap option_fmap option_map pred]; rewrite forOf_send_run).
  - destruct (decide (k < length (writesOf tz now e))%nat).
    + by exists k.
    + exists (length (writesOf tz now e)). by rewrite firstn_all.
  - exists (length (writesOf tz now e)). by rewrite firstn_all.
Qed.

(** X2: the ledger is insert-only.  Whatever the pool does, a row that is
    in [events_log] before a call to [processEvent] is there, unchanged,
    after it. *)
Theorem ledger_rows_are_kept (tz now : Z) (e : Event) (c : option string)
    (p : Pool) (k : string * Z) (row : EventRow) :
  events_log (db p) !! k = Some row →
  events_log (db (fst (processEvent tz now e c p))) !! k = Some row.
Proof.
  intros Hk.
  destruct (processEvent_db_cases tz now e c p) as [-> | (Hnew & n & ->)]; [done|].
  cbn [events_log]. rewrite lookup_insert_ne; [done|]. congruence.
Qed.

Lemma ledger_rows_are_kept_witness :
  let p := fst (processEvent 0 0 orderCreated1 (Some "first") (healthy emptyStore [])) in
  let row := {| user_id := Some 10; correlation_id := Some "first";
                row_data := None |} in
  events_log (db p) !! eventKey orderCreated1 = Some row ∧
  events_log (db (fst (processEvent 0 9 orderCreated1 (Some "second") p)))
    !! eventKey orderCreated1 = Some row.
Proof.
  cbv zeta. split; [reflexivity|].
  apply (ledger_rows_are_kept 0 9 orderCreated1 (Some "second")). reflexivity.
Defined.

(** X3: a duplicate touches nothing, on any pool.  When the event's key is
    already ledgered, [processEvent] sends the ledger insert and nothing
    else, leaves the whole store as it was, and answers [false] unless the
    insert itself is rejected. *)
Theorem duplicate_touches_nothing (tz now : Z) (e : Event) (c : option string)
    (p : Pool) :
  is_Some (events_log (db p) !! eventKey e) →
  db (fst (processEvent tz now e c p)) = db p ∧
  sent (fst (processEvent tz now e c p)) = sent p ++ [InsertEvent] ∧
  snd (processEvent tz now e c p) =
    (if decide (failAfter p = Some 0%nat) then Throw else Return false).
Proof.
  intros [row Hrow]. rewrite processEvent_run, Hrow.
  destruct (failAfter p) as [[|k]|]; done.
Qed.

Lemma duplicate_touches_nothing_witness :
  let p := fst (processEvent 0 0 orderConfirmed2 None (healthy emptyStore [])) in
  is_Some (events_log (db p) !! eventKey orderConfirmed2) ∧
  db (fst (processEvent 0 5 orderConfirmed2 None p)) = db p.
Proof.
  cbv zeta.
  assert (Hdup : is_Some (events_log (db (fst
      (processEvent 0 0 orderConfirmed2 None (healthy emptyStore [])))) !!
        eventKey orderConfirmed2)) by (vm_compute; eauto).
  split; [exact Hdup|].
  exact (proj1 (duplicate_touches_nothing 0 5 orderConfirmed2 None _ Hdup)).
Defined.

(** ** Counters only grow *)

Lemma countersLe_refl (r : DailyRow) : countersLe r r.
Proof. unfold countersLe. lia. Qed.

Lemma countersGrow_refl (a : Aggregates) : countersGrow a a.
Proof.
  split_and!; intros k r Hr; exists r; (split; [done|]);
    [apply countersLe_refl | lia | lia].
Qed.

Lemma countersGrow_trans (a b c : Aggregates) :
  countersGrow a b → countersGrow b c → countersGrow a c.
Proof.
  intros (Hd1 & Hh1 & Hp1) (Hd2 & Hh2 & Hp2). split_and!.
  - intros d r Hr. destruct (Hd1 d r Hr) as (r1 & Hr1 & Hle1).
    destruct (Hd2 d r1 Hr1) as (r2 & Hr2 & Hle2). exists r2. split; [done|].
    unfold countersLe in *. lia.
  - intros k r Hr. destruct (Hh1 k r Hr) as (r1 & Hr1 & Hle1).
    destruct (Hh2 k r1 Hr1) as (r2 & Hr2 & Hle2). exists r2. split; [done|]. lia.
  - intros k r Hr. destruct (Hp1 k r Hr) as (r1 & Hr1 & Hle1).
    destruct (Hp2 k r1 Hr1) as (r2 & Hr2 & Hle2). exists r2. split; [done|]. lia.
Qed.

Lemma dailyOf_counters (e : Event) (r : DailyRow) :
  dailyOf e = Some r → countersLe zeroDaily r.
Proof.
  unfold dailyOf. repeat case_decide; intros [= <-]; unfold countersLe; cbn; lia.
Qed.

Lemma hourlyOf_counter (e : Event) (r : HourlyRow) :
  hourlyOf e = Some r → 0 ≤ order_count r.
Proof. unfold hourlyOf. repeat case_decide; intros [= <-]; cbn; lia. Qed.

Lemma write_countersGrow (tz now : Z) (e : Event) (w : Write) (a : Aggregates) :
  w ∈ writesOf tz now e → countersGrow a (w.2 a).
Proof.
  unfold writesOf. rewrite !elem_of_app. intros [Hw|[Hw|Hw]].
  - destruct (dailyOf e) as [x|] eqn:Hx; [|by apply elem_of_nil in Hw].
    apply list_elem_of_singleton in Hw as ->. apply dailyOf_counters in Hx.
    split_and!; cbn; try (intros k r Hr; exists r; split; [done|lia]).
    intros d r Hr. destruct (decide (today now = d)) as [<-|Hne].
    + rewrite onConflictUpdate_lookup, Hr. eexists. split; [done|].
      unfold countersLe, addDaily, zeroDaily in *. cbn in *. lia.
    + rewrite onConflictUpdate_lookup_ne by done. exists r.
      split; [done|apply countersLe_refl].
  - destruct (hourlyOf e) as [x|] eqn:Hx; [|by apply elem_of_nil in Hw].
    apply list_elem_of_singleton in Hw as ->. apply hourlyOf_counter in Hx.
    split_and!; cbn; try (intros k r Hr; exists r; split; [done|lia]).
    + intros d r Hr. exists r. split; [done|apply countersLe_refl].
    + intros b r Hr. destruct (decide (hourBucket tz now = b)) as [<-|Hne].
      * rewrite onConflictUpdate_lookup, Hr. eexists. split; [done|]. cbn. lia.
      * rewrite onConflictUpdate_lookup_ne by done. exists r. split; [done|lia].
  - apply list_elem_of_fmap in Hw as (item & -> & _).
    split_and!; cbn; try (intros k r Hr; exists r; split; [done|lia]).
    + intros d r Hr. exists r. split; [done|apply countersLe_refl].
    + intros k r Hr. destruct (decide (productId item = k)) as [<-|Hne].
      * rewrite onConflictUpdate_lookup, Hr. eexists. split; [done|]. cbn. lia.
      * rewrite onConflictUpdate_lookup_ne by done. exists r. split; [done|lia].
Qed.

Lemma applyWrites_countersGrow (tz now : Z) (e : Event) (ws : list Write)
    (a : Aggregates) :
  (∀ w, w ∈ ws → w ∈ writesOf tz now e) → countersGrow a (applyWrites ws a).
Proof.
  revert a. induction ws as [|w ws IH]; intros a Hin.
  - apply countersGrow_refl.
  - unfold applyWrites. cbn [foldl].
    apply (countersGrow_trans _ (w.2 a)).
    + apply (write_countersGrow tz now e). apply Hin, list_elem_of_here.
    + apply IH. intros w' Hw'. by apply Hin, list_elem_of_further.
Qed.

(** X4: event counters only grow.  Whatever the pool does and whatever the
    event, every row of the three aggregate tables is still there after
    [processEvent], and none of its event counters (the six daily
    counters, the hourly order count, the product order count) is
    smaller. *)
Theorem counters_never_decrease (tz now : Z) (e : Event) (c : option string)
    (p : Pool) :
  countersGrow (aggregates (db p))
    (aggregates (db (fst (processEvent tz now e c p)))).
Proof.
  destruct (processEvent_db_cases tz now e c p) as [-> | (_ & n & ->)].
  - apply countersGrow_refl.
  - cbn [aggregates]. apply (applyWrites_countersGrow tz now e).
    intros w Hw. by apply (subseteq_take n) in Hw.
Qed.

(** ** The other event types *)

Lemma created_views (e : Event) :
  type e = EVENT_TYPES.ORDER_CREATED →
  dailyOf e = Some
    {| orders_created := 1; orders_confirmed := 0; orders_cancelled := 0;
       orders_shipped := 0; revenue_confirmed := 0; revenue_cancelled := 0;
       payment_success_count := 0; payment_failure_count := 0 |} ∧
  hourlyOf e = Some {| order_count := 1; revenue := 0 |} ∧
  lineItems e = [].
Proof.
  intros Hty. unfold dailyOf, hourlyOf, lineItems.
  repeat case_decide; try done; exfalso; clash_types.
Qed.

Lemma daily_only_views (e : Event) :
  type e = EVENT_TYPES.ORDER_CANCELLED ∨ type e = EVENT_TYPES.ORDER_SHIPPED ∨
  type e = EVENT_TYPES.PAYMENT_AUTHORIZED ∨ type e = EVENT_TYPES.PAYMENT_FAILED →
  is_Some (dailyOf e) ∧ hourlyOf e = None ∧ lineItems e = [].
Proof.
  intros Hty. unfold dailyOf, hourlyOf, lineItems.
  repeat case_decide; try (exfalso; clash_types);
    try (split_and!; [eauto|done|done]);
    exfalso; destruct Hty as [?|[?|[?|?]]]; clash_types.
Qed.

(** X5: an order created that is not ledgered yet, on a healthy pool, is
    answered with [true], adds one to [orders_created] of today's row and
    one to [order_count] of the current hour bucket, creating either row
    with zeros elsewhere if it is missing, and changes nothing else: no
    other daily or hourly row, no revenue, no product row. *)
Theorem order_created_increments (tz now : Z) (e : Event) (c : option string)
    (s : Store) (log : list Statement) :
  type e = EVENT_TYPES.ORDER_CREATED →
  events_log s !! eventKey e = None →
  let a := aggregates s in
  let a' := aggregates (db (fst (processEvent tz now e c (healthy s log)))) in
  let day := default zeroDaily (daily_metrics a !! today now) in
  let hour := default zeroHourly (hourly_order_counts a !! hourBucket tz now) in
  snd (processEvent tz now e c (healthy s log)) = Return true ∧
  daily_metrics a' !! today now = Some
    {| orders_created := orders_created day + 1;
       orders_confirmed := orders_confirmed day;
       orders_cancelled := orders_cancelled day;
       orders_shipped := orders_shipped day;
       revenue_confirmed := revenue_confirmed day;
       revenue_cancelled := revenue_cancelled day;
       payment_success_count := payment_success_count day;
       payment_failure_count := payment_failure_count day |} ∧
  (∀ d, d ≠ today now → daily_metrics a' !! d = daily_metrics a !! d) ∧
  hourly_order_counts a' !! hourBucket tz now = Some
    {| order_count := order_count hour + 1; revenue := revenue hour |} ∧
  (∀ b, b ≠ hourBucket tz now →
     hourly_order_counts a' !! b = hourly_order_counts a !! b) ∧
  product_metrics a' = product_metrics a.
Proof.
  intros Hty Hnew a a' day hour.
  subst a'. rewrite processEvent_healthy, Hnew.
  unfold healthy, aggregated.
  destruct (created_views e Hty) as (-> & -> & ->).
  cbn [fst snd db aggregates upsertOpt daily_metrics hourly_order_counts
       product_metrics].
  split_and!.
  - done.
  - rewrite (onConflictUpdate_lookup_default _ zeroDaily) by apply addDaily_zero_l.
    fold a day. unfold addDaily. cbn. f_equal. f_equal; lia.
  - intros d Hd. by apply onConflictUpdate_lookup_ne.
  - rewrite (onConflictUpdate_lookup_default _ zeroHourly) by apply addHourly_zero_l.
    fold a hour. unfold addHourly. cbn. f_equal. f_equal; lia.
  - intros b Hb. by apply onConflictUpdate_lookup_ne.
  - done.
Qed.

Lemma order_created_increments_witness :
  type orderCreated1 = EVENT_TYPES.ORDER_CREATED ∧
  events_log emptyStore !! eventKey orderCreated1 = None ∧
  let a' := aggregates (db (fst
    (processEvent 0 1000 orderCreated1 None (healthy emptyStore [])))) in
  daily_metrics a' !! 0 = Some
    {| orders_created := 1; orders_confirmed := 0; orders_cancelled := 0;
       orders_shipped := 0; revenue_confirmed := 0; revenue_cancelled := 0;
       payment_success_count := 0; payment_failure_count := 0 |} ∧
  hourly_order_counts a' !! 0 = Some {| order_count := 1; revenue := 0 |}.
Proof.
  split; [reflexivity|]. split; [reflexivity|].
  destruct (order_created_increments 0 1000 orderCreated1 None emptyStore []
              eq_refl eq_refl) as (_ & Hd & _ & Hh & _).
  cbv zeta. split; [exact Hd | exact Hh].
Defined.

(** X6: the four event types that only count.  An order cancelled, an
    order shipped, a payment authorized or a payment failed that is not
    ledgered yet, on a healthy pool, is answered with [true] and changes
    today's daily row only: one more in the column of its type, the
    cancelled amount on [revenue_cancelled] for a cancellation, every
    other column as it was.  No other daily row, no hourly row and no
    product row changes. *)
Theorem counting_events_touch_one_daily_row (tz now : Z) (e : Event)
    (c : option string) (s : Store) (log : list Statement) :
  type e = EVENT_TYPES.ORDER_CANCELLED ∨ type e = EVENT_TYPES.ORDER_SHIPPED ∨
  type e = EVENT_TYPES.PAYMENT_AUTHORIZED ∨ type e = EVENT_TYPES.PAYMENT_FAILED →
  events_log s !! eventKey e = None →
  let a := aggregates s in
  let a' := aggregates (db (fst (processEvent tz now e c (healthy s log)))) in
  let day := default zeroDaily (daily_metrics a !! today now) in
  let one (t : string) : Z := if decide (type e = t) then 1 else 0 in
  snd (processEvent tz now e c (healthy s log)) = Return true ∧
  daily_metrics a' !! today now = Some
    {| orders_created := orders_created day;
       orders_confirmed := orders_confirmed day;
       orders_cancelled := orders_cancelled day + one EVENT_TYPES.ORDER_CANCELLED;
       orders_shipped := orders_shipped day + one EVENT_TYPES.ORDER_SHIPPED;
       revenue_confirmed := revenue_confirmed day;
       revenue_cancelled :=
         revenue_cancelled day +
         (if decide (type e = EVENT_TYPES.ORDER_CANCELLED)
          then orZero (data e ≫= totalAmount) else 0);
       payment_success_count :=
         payment_success_count day + one EVENT_TYPES.PAYMENT_AUTHORIZED;
       payment_failure_count :=
         payment_failure_count day + one EVENT_TYPES.PAYMENT_FAILED |} ∧
  (∀ d, d ≠ today now → daily_metrics a' !! d = daily_metrics a !! d) ∧
  hourly_order_counts a' = hourly_order_counts a ∧
  product_metrics a' = product_metrics a.
Proof.
  intros Hty Hnew a a' day one.
  subst a'. rewrite processEvent_healthy, Hnew.
  unfold healthy, aggregated.
  destruct (daily_only_views e Hty) as ([x Hx] & -> & ->).
  rewrite Hx.
  cbn [fst snd db aggregates upsertOpt daily_metrics hourly_order_counts
       product_metrics].
  split_and!; try done.
  - rewrite (onConflictUpdate_lookup_default _ zeroDaily) by apply addDaily_zero_l.
    fold a day. f_equal. subst one. revert Hx. unfold dailyOf.
    repeat case_decide; try (exfalso; clash_types);
      try (exfalso; destruct Hty as [?|[?|[?|?]]]; clash_types);
      intros [= <-]; unfold addDaily; cbn; f_equal; lia.
  - intros d Hd. by apply onConflictUpdate_lookup_ne.
Qed.

Lemma counting_events_touch_one_daily_row_witness :
  (type orderCancelled3 = EVENT_TYPES.ORDER_CANCELLED ∨
   type orderCancelled3 = EVENT_TYPES.ORDER_SHIPPED ∨
   type orderCancelled3 = EVENT_TYPES.PAYMENT_AUTHORIZED ∨
   type orderCancelled3 = EVENT_TYPES.PAYMENT_FAILED) ∧
  events_log emptyStore !! eventKey orderCancelled3 = None ∧
  let a' := aggregates (db (fst
    (processEvent 0 1000 orderCancelled3 None (healthy emptyStore [])))) in
  daily_metrics a' !! 0 = Some
    {| orders_created := 0; orders_confirmed := 0; orders_cancelled := 1;
       orders_shipped := 0; revenue_confirmed := 0; revenue_cancelled := 5998;
       payment_success_count := 0; payment_failure_count := 0 |} ∧
  hourly_order_counts a' = ∅.
Proof.
  assert (Hty : type orderCancelled3 = EVENT_TYPES.ORDER_CANCELLED ∨
                type orderCancelled3 = EVENT_TYPES.ORDER_SHIPPED ∨
                type orderCancelled3 = EVENT_TYPES.PAYMENT_AUTHORIZED ∨
                type orderCancelled3 = EVENT_TYPES.PAYMENT_FAILED)
    by (left; reflexivity).
  split; [exact Hty|]. split; [reflexivity|].
  destruct (counting_events_touch_one_daily_row 0 1000 orderCancelled3 None
              emptyStore [] Hty eq_refl) as (_ & Hd & _ & Hh & _).
  cbv zeta. split; [exact Hd | exact Hh].
Defined.

(** X7: how many statements an event costs.  On a healthy pool an event
    that is not ledgered yet sends the ledger insert, then a daily and an
    hourly upsert for an order created, the same two and one product
    upsert per line item for an order confirmed, a daily upsert alone for
    the four other recognized types, and nothing for an unrecognized
    type. *)
Theorem statements_per_event (tz now : Z) (e : Event) (c : option string)
    (s : Store) (log : list Statement) :
  events_log s !! eventKey e = None →
  let stmts := sent (fst (processEvent tz now e c (healthy s log))) in
  (type e = EVENT_TYPES.ORDER_CREATED →
     stmts = log ++ [InsertEvent; UpsertDaily; UpsertHourly]) ∧
  (type e = EVENT_TYPES.ORDER_CONFIRMED →
     stmts = log ++ [InsertEvent; UpsertDaily; UpsertHourly] ++
             replicate (length (default [] (data e ≫= items))) UpsertProduct) ∧
  (type e = EVENT_TYPES.ORDER_CANCELLED ∨ type e = EVENT_TYPES.ORDER_SHIPPED ∨
   type e = EVENT_TYPES.PAYMENT_AUTHORIZED ∨ type e = EVENT_TYPES.PAYMENT_FAILED →
     stmts = log ++ [InsertEvent; UpsertDaily]) ∧
  (¬ recognized (type e) → stmts = log ++ [InsertEvent]).
Proof.
  intros Hnew stmts. subst stmts. rewrite processEvent_healthy, Hnew.
  unfold healthy, statementsOf. cbn [fst sent].
  split_and!; intros Hty.
  - by destruct (created_views e Hty) as (-> & -> & ->).
  - by destruct (confirmed_views e Hty) as (-> & -> & ->).
  - by destruct (daily_only_views e Hty) as ([x ->] & -> & ->).
  - by destruct (unrecognized_views e Hty) as (-> & -> & ->).
Qed.

Lemma statements_per_event_witness :
  events_log emptyStore !! eventKey orderConfirmed2 = None ∧
  type orderConfirmed2 = EVENT_TYPES.ORDER_CONFIRMED ∧
  length (sent (fst (processEvent 0 0 orderConfirmed2 (Some "test-corr")
                       (healthy emptyStore [])))) = 5%nat.
Proof.
  split; [reflexivity|]. split; [reflexivity|].
  destruct (statements_per_event 0 0 orderConfirmed2 (Some "test-corr")
              emptyStore [] eq_refl) as (_ & Hconf & _).
  cbv zeta in Hconf. rewrite (Hconf eq_refl). reflexivity.
Defined.

(** ** The consumer callback *)

Lemma eachMessage_calls (validateEvent : ParsedEvent → option Event)
    (handler : Event → option string → Async bool) (message : Message)
    (data : Event) (cid : option string) (p : Pool) :
  handlerCall validateEvent message = Some (data, cid) →
  eachMessage validateEvent handler message p = (fst (handler data cid p), Return tt).
Proof.
  intros Hcall. unfold eachMessage. rewrite Hcall.
  unfold tryCatch, mbind, Async_bind, mret, Async_ret.
  by destruct (handler data cid p) as [q [b|]].
Qed.

(** X8: one bad message never stops the consumer.  For a handler whose
    rejections are Error objects, as those of [processEvent] and of the
    database driver are (the [Throw] of this model), [eachMessage] returns
    normally whatever the handler does.  A message without value, with a
    value that does not parse, or whose event fails validation never
    reaches the handler and leaves the pool untouched; any other message
    leaves the pool as the handler left it, whether the handler returned or
    threw.  A handler that rejects with [null] or [undefined] is outside
    the statement: the catch block reads [error.message]. *)
Theorem eachMessage_never_throws (validateEvent : ParsedEvent → option Event)
    (handler : Event → option string → Async bool) (message : Message) (p : Pool) :
  snd (eachMessage validateEvent handler message p) = Return tt ∧
  (value message = None ∨
   (∃ text, value message = Some (Unparseable text)) ∨
   (∃ event, value message = Some (Document event) ∧
             validateEvent (injected message event) = None) →
   fst (eachMessage validateEvent handler message p) = p) ∧
  (∀ event data, value message = Some (Document event) →
     validateEvent (injected message event) = Some data →
     fst (eachMessage validateEvent handler message p)
     = fst (handler data (headerCorrelationId message) p)).
Proof.
  split_and!.
  - destruct (handlerCall validateEvent message) as [[d cid]|] eqn:Hcall.
    + by rewrite (eachMessage_calls _ _ _ _ _ _ Hcall).
    + unfold eachMessage. by rewrite Hcall.
  - intros Hbad. unfold eachMessage, handlerCall.
    destruct Hbad as [-> | [[text ->] | (event & -> & ->)]]; done.
  - intros event data Hval Hok.
    rewrite (eachMessage_calls _ _ _ data (headerCorrelationId message)); [done|].
    unfold handlerCall. by rewrite Hval, Hok.
Qed.

Lemma eachMessage_never_throws_witness :
  let garbled := {| headers := None; value := Some (Unparseable "{type:") |} in
  let p := {| db := emptyStore; sent := []; failAfter := Some 0%nat |} in
  (∃ text, value garbled = Some (Unparseable text)) ∧
  fst (eachMessage acceptAll (processEvent 0 0) garbled p) = p.
Proof.
  cbv zeta.
  assert (Hbad : ∃ text, value {| headers := None;
                                  value := Some (Unparseable "{type:") |}
                         = Some (Unparseable text)) by (by eexists).
  split; [exact Hbad|].
  apply (eachMessage_never_throws acceptAll (processEvent 0 0)).
  right. left. exact Hbad.
Defined.

(** X9: redelivery is harmless.  On a healthy pool, handing the same
    message to the consumer callback a second time, at any later instant,
    leaves ledger and aggregates exactly as the first delivery left them,
    whatever the message and the validator. *)
Theorem redelivery_changes_nothing (validateEvent : ParsedEvent → option Event)
    (tz t1 t2 : Z) (message : Message) (s : Store) (log : list Statement) :
  let p1 := fst (eachMessage validateEvent (processEvent tz t1) message
                   (healthy s log)) in
  db (fst (eachMessage validateEvent (processEvent tz t2) message p1)) = db p1.
Proof.
  cbv zeta.
  destruct (handlerCall validateEvent message) as [[d cid]|] eqn:Hcall.
  - rewrite !(eachMessage_calls _ _ _ _ _ _ Hcall). cbn [fst].
    rewrite processEvent_healthy.
    destruct (events_log s !! eventKey d) as [row|] eqn:Hrow; cbn [fst].
    + by rewrite processEvent_healthy, Hrow.
    + rewrite processEvent_healthy. cbn [events_log].
      by rewrite lookup_insert_eq.
  - unfold eachMessage. by rewrite Hcall.
Qed.

(** X10: a rejected upsert loses the event silently.  When the message
    carries a recognized event that is not ledgered yet and the statement
    after the ledger insert is rejected, the callback still returns
    normally, the event is in the ledger and in no aggregate, and a
    redelivery of the message changes nothing any more. *)
Theorem rejected_message_is_lost (validateEvent : ParsedEvent → option Event)
    (tz t1 t2 : Z) (message : Message) (data : Event) (cid : option string)
    (s : Store) (log : list Statement) :
  handlerCall validateEvent message = Some (data, cid) →
  recognized (type data) →
  events_log s !! eventKey data = None →
  let r1 := eachMessage validateEvent (processEvent tz t1) message
              {| db := s; sent := log; failAfter := Some 1%nat |} in
  let r2 := eachMessage validateEvent (processEvent tz t2) message (fst r1) in
  snd r1 = Return tt ∧
  is_Some (events_log (db (fst r1)) !! eventKey data) ∧
  aggregates (db (fst r1)) = aggregates s ∧
  snd r2 = Return tt ∧
  db (fst r2) = db (fst r1).
Proof.
  intros Hcall Hrec Hnew. cbv zeta.
  rewrite !(eachMessage_calls _ _ _ _ _ _ Hcall). cbn [fst snd].
  destruct (rejected_upsert_leaves_event_ledgered tz t1 t2 data cid cid s log
              Hrec Hnew) as [-> _].
  cbn [fst db healthy events_log aggregates].
  rewrite lookup_insert_eq. split_and!; try done.
  rewrite processEvent_healthy. cbn [events_log].
  by rewrite lookup_insert_eq.
Qed.

Lemma rejected_message_is_lost_witness :
  handlerCall acceptAll headerIdMessage = Some (orderCreated1, Some "trace-7") ∧
  recognized (type orderCreated1) ∧
  events_log emptyStore !! eventKey orderCreated1 = None ∧
  let r1 := eachMessage acceptAll (processEvent 0 0) headerIdMessage
              {| db := emptyStore; sent := []; failAfter := Some 1%nat |} in
  snd r1 = Return tt ∧
  is_Some (events_log (db (fst r1)) !! eventKey orderCreated1) ∧
  aggregates (db (fst r1)) = aggregates emptyStore.
Proof.
  assert (Hcall : handlerCall acceptAll headerIdMessage
                  = Some (orderCreated1, Some "trace-7")) by reflexivity.
  assert (Hrec : recognized (type orderCreated1)) by (left; reflexivity).
  split; [exact Hcall|]. split; [exact Hrec|]. split; [reflexivity|].
  destruct (rejected_message_is_lost acceptAll 0 0 5 headerIdMessage orderCreated1
              (Some "trace-7") emptyStore [] Hcall Hrec eq_refl)
    as (H1 & H2 & H3 & _).
  cbv zeta. split_and!; [exact H1 | exact H2 | exact H3].
Defined.

(** ** Starting and stopping the consumer *)

(** X11: starting twice connects once.  From a stopped consumer whose
    calls are all accepted, [startConsumer] connects, subscribes to the
    order and the payment topic, and runs, in that order, and the health
    status becomes connected; a second [startConsumer] returns without any
    call; [stopConsumer] then disconnects once and the status is
    disconnected again, and a second [stopConsumer] makes no call. *)
Theorem start_and_stop_are_idempotent (validateEvent : ParsedEvent → option Event)
    (handler : Event → option string → Async bool) (log : list ConsumerCall) :
  let startConsumer := startConsumer validateEvent handler in
  let k0 := {| isRunning := false; calls := log; refuseAfter := None |} in
  let k1 := fst (startConsumer k0) in
  let k2 := fst (startConsumer k1) in
  let k3 := fst (stopConsumer k2) in
  let k4 := fst (stopConsumer k3) in
  calls k1 = log ++ [Connect; Subscribe TOPICS.ORDER_EVENTS;
                     Subscribe TOPICS.PAYMENT_EVENTS;
                     Run (eachMessage validateEvent handler)] ∧
  getHealthStatus k1 = "connected" ∧
  k2 = k1 ∧
  calls k3 = calls k1 ++ [Disconnect] ∧
  getHealthStatus k3 = "disconnected" ∧
  k4 = k3 ∧
  snd (startConsumer k0) = Return tt ∧ snd (startConsumer k1) = Return tt ∧
  snd (stopConsumer k2) = Return tt ∧ snd (stopConsumer k3) = Return tt.
Proof.
  cbv zeta. unfold startConsumer, stopConsumer, consumerCall, setRunning,
    mbind, Kafka_bind. cbn.
  rewrite <- !app_assoc. cbn. split_and!; reflexivity.
Qed.

(** X12: where a failed start leaves the flag.  From a stopped consumer,
    when the connect or one of the two subscriptions is rejected,
    [startConsumer] throws, the consumer still counts as not running, and
    [stopConsumer] then makes no call, so a connection that was opened
    before the rejected subscription is not closed.  When [run] itself is
    rejected, [startConsumer] throws as well, but the flag is already set:
    the health status reads connected and a further [startConsumer]
    returns normally without calling anything. *)
Theorem failed_start_and_the_running_flag
    (validateEvent : ParsedEvent → option Event)
    (handler : Event → option string → Async bool)
    (log : list ConsumerCall) (n : nat) :
  (n ≤ 3)%nat →
  let startConsumer := startConsumer validateEvent handler in
  let k0 := {| isRunning := false; calls := log; refuseAfter := Some n |} in
  let k1 := fst (startConsumer k0) in
  snd (startConsumer k0) = Throw ∧
  calls k1 = log ++ take (S n) [Connect; Subscribe TOPICS.ORDER_EVENTS;
                                Subscribe TOPICS.PAYMENT_EVENTS;
                                Run (eachMessage validateEvent handler)] ∧
  ((n < 3)%nat →
     getHealthStatus k1 = "disconnected" ∧ stopConsumer k1 = (k1, Return tt)) ∧
  (n = 3%nat →
     getHealthStatus k1 = "connected" ∧ startConsumer k1 = (k1, Return tt)).
Proof.
  intros Hn. cbv zeta.
  destruct n as [|[|[|[|n]]]]; [| | | |lia];
    unfold startConsumer, stopConsumer, consumerCall, setRunning,
      mbind, Kafka_bind; cbn; rewrite <- ?app_assoc; cbn;
    (split_and!; [done|done|intros ?|intros ?]; try lia; try done).
Qed.

Lemma failed_start_and_the_running_flag_witness :
  (3 ≤ 3)%nat ∧
  let k0 := {| isRunning := false; calls := []; refuseAfter := Some 3%nat |} in
  snd (startConsumer acceptAll (processEvent 0 0) k0) = Throw ∧
  getHealthStatus (fst (startConsumer acceptAll (processEvent 0 0) k0)) = "connected".
Proof.
  split; [lia|].
  destruct (failed_start_and_the_running_flag acceptAll (processEvent 0 0) [] 3
              (le_n 3)) as (Hthrow & _ & _ & Hrun).
  cbv zeta. split; [exact Hthrow|]. exact (proj1 (Hrun eq_refl)).
Defined.

(** X13: a rejected disconnect keeps the consumer running.  When the
    consumer is running and [disconnect] is rejected, [stopConsumer]
    throws and the flag stays set, so the health status still reads
    connected and the next [stopConsumer] tries to disconnect again. *)
Theorem rejected_disconnect_keeps_running (log : list ConsumerCall) :
  let k0 := {| isRunning := true; calls := log; refuseAfter := Some 0%nat |} in
  let k1 := fst (stopConsumer k0) in
  snd (stopConsumer k0) = Throw ∧
  getHealthStatus k1 = "connected" ∧
  stopConsumer k1 =
    ({| isRunning := false; calls := log ++ [Disconnect; Disconnect];
        refuseAfter := None |}, Return tt).
Proof.
  cbv zeta. unfold stopConsumer, consumerCall, setRunning, mbind, Kafka_bind.
  cbn. rewrite <- app_assoc. done.
Qed.

(** ** What the dashboard reads *)

Lemma sumColumn_upsert (column : DailyRow → Z) (k : Z) (x : DailyRow)
    (m : gmap Z DailyRow) :
  (∀ r y, column (addDaily r y) = column r + column y) →
  sumColumn column (onConflictUpdate addDaily k x m) = sumColumn column m + column x.
Proof.
  intros Hadd. unfold sumColumn, onConflictUpdate.
  assert (Hcomm : ∀ (z1 z2 : DailyRow) (y : Z),
            column z1 + (column z2 + y) = column z2 + (column z1 + y)) by (intros; lia).
  destruct (m !! k) as [r|] eqn:Hk.
  - rewrite <- insert_delete_eq.
    rewrite map_fold_insert_L; [|intros; apply Hcomm|apply lookup_delete_eq].
    rewrite (map_fold_delete_L _ _ k r m); [|intros; apply Hcomm|done].
    rewrite Hadd. lia.
  - rewrite map_fold_insert_L; [|intros; apply Hcomm|done]. lia.
Qed.

Lemma sumColumn_applied (tz now : Z) (e : Event) (column : DailyRow → Z)
    (a : Aggregates) :
  (∀ r y, column (addDaily r y) = column r + column y) →
  column zeroDaily = 0 →
  sumColumn column (daily_metrics (aggregated tz now e a))
  = sumColumn column (daily_metrics a) + column (default zeroDaily (dailyOf e)).
Proof.
  intros Hadd Hzero. unfold aggregated. cbn [daily_metrics].
  destruct (dailyOf e) as [x|]; cbn [upsertOpt default].
  - by apply sumColumn_upsert.
  - rewrite Hzero. lia.
Qed.

Lemma dailyOf_columns (e : Event) :
  let one (t : string) : Z := if decide (type e = t) then 1 else 0 in
  let x := default zeroDaily (dailyOf e) in
  orders_created x = one EVENT_TYPES.ORDER_CREATED ∧
  orders_confirmed x = one EVENT_TYPES.ORDER_CONFIRMED ∧
  orders_shipped x = one EVENT_TYPES.ORDER_SHIPPED ∧
  orders_cancelled x = one EVENT_TYPES.ORDER_CANCELLED.
Proof.
  cbv zeta. unfold dailyOf.
  repeat case_decide; try (exfalso; clash_types); done.
Qed.

(** X14: all-time counts follow the events, not the calendar.  On a
    healthy pool, an event that is not ledgered yet raises the count
    [getConversion] reports for its own type by exactly one (created,
    confirmed, shipped or cancelled) and leaves the three others alone,
    whatever the processing instant and however the daily rows are spread;
    payment events and unrecognized events change none of the four. *)
Theorem conversion_counts_follow_events (tz now : Z) (e : Event)
    (c : option string) (s : Store) (log : list Statement) :
  events_log s !! eventKey e = None →
  let before := getConversionCounts s in
  let after := getConversionCounts
                 (db (fst (processEvent tz now e c (healthy s log)))) in
  let one (t : string) : Z := if decide (type e = t) then 1 else 0 in
  created after = created before + one EVENT_TYPES.ORDER_CREATED ∧
  confirmed after = confirmed before + one EVENT_TYPES.ORDER_CONFIRMED ∧
  shipped after = shipped before + one EVENT_TYPES.ORDER_SHIPPED ∧
  cancelled after = cancelled before + one EVENT_TYPES.ORDER_CANCELLED.
Proof.
  intros Hnew. cbv zeta. rewrite processEvent_healthy, Hnew.
  unfold getConversionCounts, healthy. cbn [fst db aggregates created confirmed shipped cancelled].
  destruct (dailyOf_columns e) as (H1 & H2 & H3 & H4).
  rewrite !(sumColumn_applied tz now e) by (intros; done).
  rewrite H1, H2, H3, H4. done.
Qed.

Lemma conversion_counts_follow_events_witness :
  events_log emptyStore !! eventKey orderShipped4 = None ∧
  getConversionCounts
    (db (fst (processEvent 0 0 orderShipped4 None (healthy emptyStore []))))
  = {| created := 0; confirmed := 0; shipped := 1; cancelled := 0 |}.
Proof.
  split; [reflexivity|].
  destruct (conversion_counts_follow_events 0 0 orderShipped4 None emptyStore []
              eq_refl) as (H1 & H2 & H3 & H4).
  cbv zeta in *.
  destruct (getConversionCounts _) as [a b c d]. cbn in *. by subst.
Defined.

(** X15: the status breakdown of the overview.  The four numbers of
    [ordersByStatus] always add up to [totalOrders].  On a healthy pool an
    event that is not ledgered yet moves them as follows: an order created
    adds one to total and to created; an order confirmed moves one from
    created to confirmed; an order shipped moves one from confirmed to
    shipped; an order cancelled moves one from created to cancelled; any
    other event leaves them alone.  Nothing keeps created or confirmed
    from going below zero when the earlier event of an order is
    missing. *)
Theorem overview_status_breakdown (tz now : Z) (e : Event) (c : option string)
    (s : Store) (log : list Statement) :
  events_log s !! eventKey e = None →
  let before := getOverviewOrders s in
  let after := getOverviewOrders
                 (db (fst (processEvent tz now e c (healthy s log)))) in
  let one (t : string) : Z := if decide (type e = t) then 1 else 0 in
  created (ordersByStatus after) + confirmed (ordersByStatus after) +
    shipped (ordersByStatus after) + cancelled (ordersByStatus after)
    = totalOrders after ∧
  totalOrders after = totalOrders before + one EVENT_TYPES.ORDER_CREATED ∧
  created (ordersByStatus after) =
    created (ordersByStatus before) + one EVENT_TYPES.ORDER_CREATED
    - one EVENT_TYPES.ORDER_CONFIRMED - one EVENT_TYPES.ORDER_CANCELLED ∧
  confirmed (ordersByStatus after) =
    confirmed (ordersByStatus before) + one EVENT_TYPES.ORDER_CONFIRMED
    - one EVENT_TYPES.ORDER_SHIPPED ∧
  shipped (ordersByStatus after) =
    shipped (ordersByStatus before) + one EVENT_TYPES.ORDER_SHIPPED ∧
  cancelled (ordersByStatus after) =
    cancelled (ordersByStatus before) + one EVENT_TYPES.ORDER_CANCELLED.
Proof.
  intros Hnew. cbv zeta. rewrite processEvent_healthy, Hnew.
  unfold getOverviewOrders, healthy.
  cbn [fst db aggregates totalOrders ordersByStatus created confirmed shipped
       cancelled].
  destruct (dailyOf_columns e) as (H1 & H2 & H3 & H4).
  rewrite !(sumColumn_applied tz now e) by (intros; done).
  rewrite H1, H2, H3, H4. lia.
Qed.

Lemma overview_status_breakdown_witness :
  events_log emptyStore !! eventKey orderConfirmed2 = None ∧
  created (ordersByStatus (getOverviewOrders
    (db (fst (processEvent 0 0 orderConfirmed2 None (healthy emptyStore []))))))
  = -1.
Proof.
  split; [reflexivity|].
  destruct (overview_status_breakdown 0 0 orderConfirmed2 None emptyStore []
              eq_refl) as (_ & _ & H & _).
  cbv zeta in H. rewrite H. reflexivity.
Defined.

(** X16: the page size of the top products route.  Whatever the request's
    [limit] parses to, the limit given to [getTopProducts] lies between 1
    and 50: a value in that range is used as it is, a larger one becomes
    50, a negative one becomes 1, and a missing, unparseable or zero value
    becomes 10. *)
Theorem top_products_limit_bounds (parsed : option Z) :
  1 ≤ topProductsLimit parsed ≤ 50 ∧
  (∀ v, parsed = Some v → 1 ≤ v ≤ 50 → topProductsLimit parsed = v) ∧
  (∀ v, parsed = Some v → 50 < v → topProductsLimit parsed = 50) ∧
  (∀ v, parsed = Some v → v < 0 → topProductsLimit parsed = 1) ∧
  (parsed = None ∨ parsed = Some 0 → topProductsLimit parsed = 10).
Proof.
  unfold topProductsLimit. split; [|split_and!].
  - destruct parsed as [v|]; repeat case_decide; lia.
  - intros v -> Hv. repeat case_decide; lia.
  - intros v -> Hv. repeat case_decide; lia.
  - intros v -> Hv. repeat case_decide; lia.
  - intros [-> | ->]; reflexivity.
Qed.

Lemma top_products_limit_bounds_witness :
  Some 100 = Some 100 ∧ 50 < 100 ∧ topProductsLimit (Some 100) = 50.
Proof.
  split; [reflexivity|]. split; [lia|].
  apply (proj1 (proj2 (proj2 (top_products_limit_bounds (Some 100)))) 100);
    [reflexivity | lia].
Defined.

(** ** Migrations *)

#[global] Instance nameLe_total : Total nameLe.
Proof. intros a b. apply String.leb_total. Qed.

Lemma executeAll_spec (rejects : string → bool) (l : list string) :
  let '(attempted, r) := executeAll rejects l in
  attempted `prefix_of` l ∧
  match r with
  | Return _ => attempted = l ∧ Forall (λ f, rejects f = false) l
  | Throw => ∃ before f, attempted = before ++ [f] ∧ rejects f = true ∧
                         Forall (λ g, rejects g = false) before
  end.
Proof.
  induction l as [|file rest IH]; [by cbn|].
  cbn [executeAll]. destruct (rejects file) eqn:Hfile.
  - split; [by apply prefix_cons, prefix_nil|].
    exists [], file. by split_and!.
  - destruct (executeAll rejects rest) as [attempted [[]|]].
    + destruct IH as (Hpre & -> & Hall). split; [done|]. split; [done|].
      by constructor.
    + destruct IH as (Hpre & before & f & -> & Hf & Hall).
      split; [by apply prefix_cons|].
      exists (file :: before), f. split_and!; [done|done|by constructor].
Qed.

(** X17: migrations run in name order and stop at the first failure.  The
    files attempted are the first ones of the directory's [.sql] files
    taken in ascending name order; files with another ending are never
    touched.  When no file fails all of them run and [runMigrations]
    returns; when one fails it is the last one attempted, every file
    before it succeeded, no later file is tried, and the failure is
    thrown on.  When the directory cannot be read nothing is attempted. *)
Theorem migrations_run_in_name_order (rejects : string → bool)
    (readdir : option (list string)) :
  match readdir with
  | None => runMigrations rejects readdir = ([], Throw)
  | Some files =>
      let '(attempted, r) := runMigrations rejects readdir in
      ∃ sqlFiles,
        sqlFiles ≡ₚ filter (λ f, endsWith f ".sql") files ∧
        Sorted nameLe sqlFiles ∧
        attempted `prefix_of` sqlFiles ∧
        (∀ f, f ∈ attempted → f ∈ files ∧ endsWith f ".sql") ∧
        match r with
        | Return _ => attempted = sqlFiles ∧ Forall (λ f, rejects f = false) sqlFiles
        | Throw => ∃ before f, attempted = before ++ [f] ∧ rejects f = true ∧
                               Forall (λ g, rejects g = false) before
        end
  end.
Proof.
  destruct readdir as [files|]; [|done]. unfold runMigrations.
  set (sqlFiles := merge_sort nameLe (filter (λ f, endsWith f ".sql") files)).
  pose proof (executeAll_spec rejects sqlFiles) as Hspec.
  destruct (executeAll rejects sqlFiles) as [attempted r].
  destruct Hspec as [Hpre Hend].
  exists sqlFiles. split_and!; try done.
  - apply merge_sort_Permutation.
  - apply Sorted_merge_sort. apply _.
  - intros f Hf.
    assert (Hin : f ∈ filter (λ f, endsWith f ".sql") files).
    { rewrite <- (merge_sort_Permutation nameLe). fold sqlFiles.
      by apply (elem_of_prefix attempted). }
    by apply list_elem_of_filter in Hin as [? ?].
Qed.

(** ** Buckets *)

(** X18: what a day key and an hour bucket cover.  [today] numbers the
    UTC day that contains the instant.  In a zone whose offset [tz] from
    UTC is constant, [hourBucket] is an instant at most one hour before the
    given one, on a full hour of local time, and every instant from the
    bucket up to the next full hour has the same bucket.  Zones with
    daylight saving are outside the statement. *)
Theorem buckets_cover_their_instants (tz now : Z) :
  today now * 86400000 ≤ now < (today now + 1) * 86400000 ∧
  hourBucket tz now ≤ now < hourBucket tz now + 3600000 ∧
  (hourBucket tz now + tz) `mod` 3600000 = 0 ∧
  (∀ t, hourBucket tz now ≤ t < hourBucket tz now + 3600000 →
        hourBucket tz t = hourBucket tz now).
Proof.
  unfold today, hourBucket.
  pose proof (Z.mod_pos_bound (now + tz) 3600000 ltac:(lia)) as Hm.
  pose proof (Z.div_mod (now + tz) 3600000 ltac:(lia)) as Hdm.
  pose proof (Z.mod_pos_bound now 86400000 ltac:(lia)) as Hd.
  pose proof (Z.div_mod now 86400000 ltac:(lia)) as Hdd.
  split_and!; try lia.
  - replace (now - (now + tz) `mod` 3600000 + tz)
      with (((now + tz) `div` 3600000) * 3600000) by lia.
    apply Z.mod_mul. lia.
  - intros t Ht.
    assert (Hq : (t + tz) `mod` 3600000
                 = t + tz - 3600000 * ((now + tz) `div` 3600000)).
    { symmetry. apply (Z.mod_unique_pos _ _ ((now + tz) `div` 3600000)); lia. }
    lia.
Qed.

Lemma buckets_cover_their_instants_witness :
  hourBucket 0 1000 ≤ 3599999 < hourBucket 0 1000 + 3600000 ∧
  hourBucket 0 3599999 = hourBucket 0 1000.
Proof.
  assert (H : hourBucket 0 1000 ≤ 3599999 < hourBucket 0 1000 + 3600000)
    by (vm_compute; split; [discriminate|reflexivity]).
  split; [exact H|].
  apply (proj2 (proj2 (proj2 (buckets_cover_their_instants 0 1000)))). exact H.
Defined.

(** ** The ledger and the aggregates agree *)

Lemma replayed_insert (f : Event → Z) (e : Event) (c : option string) (s : Store) :
  events_log s !! eventKey e = None →
  replayed f (<[eventKey e := ledgerRow s e c]> (events_log s))
  = replayed f (events_log s) + f e.
Proof.
  intros Hnew. unfold replayed.
  rewrite map_fold_insert_L; [|intros; lia|done].
  replace (eventOfRow (eventKey e) (ledgerRow s e c)) with e by (by destruct e).
  lia.
Qed.

Lemma sumHourly_upsert (column : HourlyRow → Z) (k : Z) (x : HourlyRow)
    (m : gmap Z HourlyRow) :
  (∀ r y, column (addHourly r y) = column r + column y) →
  sumHourly column (onConflictUpdate addHourly k x m) = sumHourly column m + column x.
Proof.
  intros Hadd. unfold sumHourly, onConflictUpdate.
  destruct (m !! k) as [r|] eqn:Hk.
  - rewrite <- insert_delete_eq.
    rewrite map_fold_insert_L; [|intros; lia|apply lookup_delete_eq].
    rewrite (map_fold_delete_L _ _ k r m); [|intros; lia|done].
    rewrite Hadd. lia.
  - rewrite map_fold_insert_L; [|intros; lia|done]. lia.
Qed.

Lemma sumHourly_applied (tz now : Z) (e : Event) (column : HourlyRow → Z)
    (a : Aggregates) :
  (∀ r y, column (addHourly r y) = column r + column y) →
  column zeroHourly = 0 →
  sumHourly column (hourly_order_counts (aggregated tz now e a))
  = sumHourly column (hourly_order_counts a) + column (default zeroHourly (hourlyOf e)).
Proof.
  intros Hadd Hzero. unfold aggregated. cbn [hourly_order_counts].
  destruct (hourlyOf e) as [x|]; cbn [upsertOpt default].
  - by apply sumHourly_upsert.
  - rewrite Hzero. lia.
Qed.

Lemma product_row_applied (tz now : Z) (e : Event) (a : Aggregates) (p : Z) :
  let row := default zeroProduct (product_metrics a !! p) in
  let row' := default zeroProduct (product_metrics (aggregated tz now e a) !! p) in
  total_quantity_sold row'
    = total_quantity_sold row + sumOver (λ i, orZero (quantity i)) p (lineItems e) ∧
  total_revenue row'
    = total_revenue row
      + sumOver (λ i, orZero (price i) * orZero (quantity i)) p (lineItems e) ∧
  product_order_count row'
    = product_order_count row + sumOver (λ _, 1) p (lineItems e).
Proof.
  cbv zeta. unfold aggregated. cbn [product_metrics].
  rewrite upsertItems_lookup. case_decide as Hin.
  - cbn. done.
  - rewrite !(sumOver_skip _ _ _ Hin). lia.
Qed.

Lemma agreesWithLedger_step (tz now : Z) (e : Event) (c : option string)
    (s : Store) (log : list Statement) :
  agreesWithLedger s →
  agreesWithLedger (db (fst (processEvent tz now e c (healthy s log)))).
Proof.
  intros Hs. rewrite processEvent_healthy.
  destruct (events_log s !! eventKey e) as [row|] eqn:Hnew; [done|].
  cbn [fst healthy db]. destruct Hs as (Hd & Hh1 & Hh2 & Hp).
  unfold agreesWithLedger. cbn [events_log aggregates]. split_and!.
  - unfold dailyColumns in *. rewrite !Forall_cons in *.
    destruct Hd as (H1 & H2 & H3 & H4 & H5 & H6 & H7 & H8 & _).
    split_and!; try apply Forall_nil_2;
      rewrite replayed_insert by done;
      rewrite (sumColumn_applied tz now e) by (intros; done); congruence.
  - rewrite replayed_insert by done.
    rewrite (sumHourly_applied tz now e) by (intros; done). congruence.
  - rewrite replayed_insert by done.
    rewrite (sumHourly_applied tz now e) by (intros; done). congruence.
  - intros p. cbv zeta. rewrite !replayed_insert by done.
    destruct (product_row_applied tz now e (aggregates s) p) as (-> & -> & ->).
    destruct (Hp p) as (-> & -> & ->). done.
Qed.

Lemma deliver_healthy (tz now : Z) (e : Event) (c : option string)
    (s : Store) (log : list Statement) :
  ∃ log', (processEvent tz now e c;; mret tt) (healthy s log)
          = (healthy (db (fst (processEvent tz now e c (healthy s log)))) log',
             Return tt).
Proof.
  unfold mbind, Async_bind, mret, Async_ret. rewrite processEvent_healthy.
  destruct (events_log s !! eventKey e); by eexists.
Qed.

Lemma processAll_healthy (tz : Z) (deliveries : list (Z * Event * option string))
    (s : Store) (log : list Statement) :
  agreesWithLedger s →
  ∃ s' log', processAll tz deliveries (healthy s log) = (healthy s' log', Return tt) ∧
             agreesWithLedger s'.
Proof.
  revert s log. induction deliveries as [|[[now e] c] ds IH]; intros s log Hs.
  - by exists s, log.
  - unfold processAll in *. cbn [forOf fst snd].
    unfold mbind at 1. unfold Async_bind at 1.
    destruct (deliver_healthy tz now e c s log) as [log' ->].
    apply IH. by apply agreesWithLedger_step.
Qed.

(** X19: the aggregates are what the ledger adds up to.  Starting from
    empty tables, after any sequence of deliveries on a healthy pool
    (duplicates and unrecognized types included, at any instants, in any
    order) every delivery has returned and every total of the aggregate
    tables equals the sum over the ledgered events: the eight daily
    columns and the two hourly columns summed over their rows, and
    quantity sold, revenue and order count of every product. *)
Theorem aggregates_agree_with_ledger (tz : Z)
    (deliveries : list (Z * Event * option string)) :
  snd (processAll tz deliveries (healthy emptyStore [])) = Return tt ∧
  agreesWithLedger (db (fst (processAll tz deliveries (healthy emptyStore [])))).
Proof.
  assert (Hempty : agreesWithLedger emptyStore).
  { unfold agreesWithLedger, dailyColumns. cbn. split_and!; try done.
    repeat constructor. }
  destruct (processAll_healthy tz deliveries emptyStore [] Hempty)
    as (s' & log' & -> & Hs').
  done.
Qed.

(** * Amounts finer than a hundredth *)

Lemma orZero_Some (v : Z) : orZero (Some v) = v.
Proof. unfold orZero. by case_decide. Qed.

(** A whole number of hundredths passes the coercion unchanged. *)
Lemma numeric_12_2_hundredths (z : Z) : Numeric.numeric_12_2 (z # 100) = z.
Proof.
  unfold Numeric.numeric_12_2. cbn [Qnum Qden].
  assert (H : (2 * Z.abs z * 100 + Z.pos 100) `div` (2 * Z.pos 100) = Z.abs z).
  { symmetry. apply (Z.div_unique _ _ _ 100); lia. }
  rewrite H. lia.
Qed.

Lemma numeric_12_2_zero : Numeric.numeric_12_2 (inject_Z 0) = 0.
Proof. reflexivity. Qed.

Lemma forOf_lines_send (scale : positive) (times : Q → Q → Q) (now : Z)
    (its : list Item) (p : Pool) :
  forOf its (λ item,
      Numeric.upsertProductMetrics (productId item) (orZero (quantity item))
        (Numeric.itemRevenue scale times item) now) p
  = forOf (Numeric.lineWrite scale times now <$> its) send p.
Proof.
  revert p. induction its as [|item its IH]; intros p; [done|].
  rewrite fmap_cons. cbn [forOf]. unfold mbind, Async_bind.
  change (send (Numeric.lineWrite scale times now item) p) with
    (Numeric.upsertProductMetrics (productId item) (orZero (quantity item))
       (Numeric.itemRevenue scale times item) now p).
  destruct (Numeric.upsertProductMetrics _ _ _ _ p) as [q [[]|]]; [apply IH|done].
Qed.

(** The switch of [Numeric.updateMetrics] is the sequence
    [Numeric.writesOf], on any pool. *)
Lemma updateMetrics_send (scale : positive) (times : Q → Q → Q) (tz now : Z)
    (e : Event) (q : Pool) :
  Numeric.updateMetrics scale times tz now e q =
    forOf (Numeric.writesOf scale times tz now e) send q.
Proof.
  assert (Hw : orZero (data (Numeric.written scale e) ≫= totalAmount) =
               Numeric.numeric_12_2
                 (Numeric.number scale (orZero (data e ≫= totalAmount))))
    by apply orZero_Some.
  unfold Numeric.updateMetrics, Numeric.writesOf, dailyOf, hourlyOf, lineItems.
  rewrite !Hw. clear Hw. cbn [type Numeric.written]. cbv zeta.
  repeat case_decide; try (exfalso; clash_types);
    cbn [app fmap list_fmap]; rewrite ?forOf_one, ?forOf_two; try done.
  cbn [forOf]. unfold mbind, Async_bind.
  change (send (dailyWrite ?d ?r) q) with
    (Numeric.upsertDailyMetrics (today now)
       {| Numeric.ordersCreated := None; Numeric.ordersConfirmed := Some 1;
          Numeric.ordersCancelled := None; Numeric.ordersShipped := None;
          Numeric.revenueConfirmed :=
            Some (Numeric.number scale (orZero (data e ≫= totalAmount)));
          Numeric.revenueCancelled := None;
          Numeric.paymentSuccessCount := None;
          Numeric.paymentFailureCount := None |} q).
  destruct (Numeric.upsertDailyMetrics _ _ q) as [q1 [[]|]]; [|done].
  change (send (hourlyWrite ?b ?r) q1) with
    (Numeric.upsertHourlyMetrics (hourBucket tz now) 0
       (Numeric.number scale (orZero (data e ≫= totalAmount))) q1).
  destruct (Numeric.upsertHourlyMetrics _ _ _ q1) as [q2 [[]|]]; [|done].
  destruct (option_bind _ _ items (data e)) as [its|]; cbn [default]; [|done].
  apply forOf_lines_send.
Qed.

(** [Numeric.processEvent] on any pool, like [processEvent_run]. *)
Lemma numeric_processEvent_run (scale : positive) (times : Q → Q → Q)
    (tz now : Z) (e : Event) (c : option string) (p : Pool) :
  Numeric.processEvent scale times tz now e c p =
    match failAfter p with
    | Some O =>
        ({| db := db p; sent := sent p ++ [InsertEvent]; failAfter := None |}, Throw)
    | fa =>
        match events_log (db p) !! eventKey e with
        | Some _ =>
            ({| db := db p; sent := sent p ++ [InsertEvent];
                failAfter := pred <$> fa |}, Return false)
        | None =>
            match forOf (Numeric.writesOf scale times tz now e) send
                    {| db := {| events_log :=
                                  <[eventKey e := ledgerRow (db p) e c]>
                                    (events_log (db p));
                                aggregates := aggregates (db p) |};
                       sent := sent p ++ [InsertEvent];
                       failAfter := pred <$> fa |} with
            | (q, Return _) => (q, Return true)
            | (q, Throw) => (q, Throw)
            end
        end
    end.
Proof.
  unfold Numeric.processEvent. unfold mbind at 1. unfold Async_bind at 1.
  unfold insertEvent, query, eventKey, ledgerRow.
  destruct (failAfter p) as [[|n]|]; [done| |];
    (destruct (events_log (db p) !! (type e, orderId e)) as [row|]; [done|];
     cbn beta iota; unfold mbind, Async_bind; rewrite updateMetrics_send;
     match goal with |- context [forOf ?ws send ?q] =>
       destruct (forOf ws send q) as [q' [[]|]] end; done).
Qed.

(** With amounts in whole hundredths and an exact product the coercion
    changes nothing: the finer pipeline is [processEvent]. *)
Lemma numeric_writesOf_hundredths (tz now : Z) (e : Event) :
  Numeric.writesOf 100 Qmult tz now e = writesOf tz now e.
Proof.
  assert (Hw : orZero (data (Numeric.written 100 e) ≫= totalAmount) =
               orZero (data e ≫= totalAmount)).
  { etrans; [apply orZero_Some|]. apply numeric_12_2_hundredths. }
  unfold Numeric.writesOf, writesOf, dailyOf, hourlyOf.
  rewrite !Hw. cbn [type Numeric.written]. do 2 f_equal.
  induction (lineItems e) as [|item its IH]; [done|].
  rewrite !fmap_cons, IH. f_equal.
  unfold Numeric.lineWrite, productWrite, productRowWrite, productRowOf.
  unfold Numeric.lineRevenue, Numeric.itemRevenue, Numeric.number.
  change ((orZero (price item) # 100) * inject_Z (orZero (quantity item)))%Q
    with ((orZero (price item) * orZero (quantity item)) # 100).
  by rewrite numeric_12_2_hundredths.
Qed.

Lemma numeric_processEvent_hundredths (tz now : Z) (e : Event)
    (c : option string) (p : Pool) :
  Numeric.processEvent 100 Qmult tz now e c p = processEvent tz now e c p.
Proof.
  by rewrite numeric_processEvent_run, processEvent_run,
    numeric_writesOf_hundredths.
Qed.

Lemma applyWrites_lines (scale : positive) (times : Q → Q → Q) (now : Z)
    (its : list Item) (a : Aggregates) :
  applyWrites (Numeric.lineWrite scale times now <$> its) a =
    {| daily_metrics := daily_metrics a;
       hourly_order_counts := hourly_order_counts a;
       product_metrics := upsertLines scale times now its (product_metrics a) |}.
Proof.
  revert a. induction its as [|i its IH]; intros a; [by destruct a|].
  unfold applyWrites, upsertLines in *. cbn [fmap list_fmap foldl].
  rewrite IH. done.
Qed.

Lemma numeric_applyWrites (scale : positive) (times : Q → Q → Q) (tz now : Z)
    (e : Event) (a : Aggregates) :
  applyWrites (Numeric.writesOf scale times tz now e) a =
    {| daily_metrics := upsertOpt addDaily (today now)
         (dailyOf (Numeric.written scale e)) (daily_metrics a);
       hourly_order_counts := upsertOpt addHourly (hourBucket tz now)
         (hourlyOf (Numeric.written scale e)) (hourly_order_counts a);
       product_metrics :=
         upsertLines scale times now (lineItems e) (product_metrics a) |}.
Proof.
  pose proof (applyWrites_lines scale times now (lineItems e)) as Hp.
  unfold Numeric.writesOf, applyWrites in *. rewrite !foldl_app, Hp.
  destruct a as [d h m], (dailyOf _), (hourlyOf _); done.
Qed.

Lemma upsertLines_revenue (scale : positive) (times : Q → Q → Q) (now p : Z)
    (its : list Item) (m : gmap Z ProductRow) :
  total_revenue (default zeroProduct (upsertLines scale times now its m !! p)) =
    total_revenue (default zeroProduct (m !! p)) +
    sumOver (Numeric.lineRevenue scale times) p its.
Proof.
  revert m. induction its as [|i its IH]; intros m.
  - cbn. lia.
  - unfold upsertLines in *. cbn [foldl]. rewrite IH, sumOver_cons. clear IH.
    case_decide as Hp.
    + subst p. rewrite onConflictUpdate_lookup.
      destruct (m !! productId i); cbn; lia.
    + by rewrite onConflictUpdate_lookup_ne.
Qed.

(** C7, as the code has it: every monetary increment is rounded to two
    decimals when it is written, and the totals add the rounded
    increments exactly.  An event that is not ledgered yet, processed on a
    healthy pool, returns [true]; it adds its total amount, coerced to
    NUMERIC(12,2), to the day's confirmed revenue and to the hour's
    revenue when it is an order confirmation, and to the day's cancelled
    revenue when it is a cancellation; and it adds to every product's
    revenue the sum, over the line items of that product, of the coerced
    Number product of price and quantity (whatever that product is).  All
    other events add zero. *)
Theorem revenue_is_rounded_on_write (scale : positive) (times : Q → Q → Q)
    (tz now : Z) (e : Event) (c : option string) (s : Store)
    (log : list Statement) :
  events_log s !! eventKey e = None →
  let run := Numeric.processEvent scale times tz now e c (healthy s log) in
  let a := aggregates s in
  let a' := aggregates (db (fst run)) in
  let amount :=
    Numeric.numeric_12_2 (Numeric.number scale (orZero (data e ≫= totalAmount))) in
  let day t := default zeroDaily (daily_metrics t !! today now) in
  let hour t := default zeroHourly (hourly_order_counts t !! hourBucket tz now) in
  let product t p := default zeroProduct (product_metrics t !! p) in
  snd run = Return true ∧
  revenue_confirmed (day a') = revenue_confirmed (day a) +
    (if decide (type e = EVENT_TYPES.ORDER_CONFIRMED) then amount else 0) ∧
  revenue_cancelled (day a') = revenue_cancelled (day a) +
    (if decide (type e = EVENT_TYPES.ORDER_CANCELLED) then amount else 0) ∧
  revenue (hour a') = revenue (hour a) +
    (if decide (type e = EVENT_TYPES.ORDER_CONFIRMED) then amount else 0) ∧
  ∀ p, total_revenue (product a' p) = total_revenue (product a p) +
         sumOver (Numeric.lineRevenue scale times) p (lineItems e).
Proof.
  intros Hnew. cbv zeta.
  assert (Hw : orZero (data (Numeric.written scale e) ≫= totalAmount) =
               Numeric.numeric_12_2
                 (Numeric.number scale (orZero (data e ≫= totalAmount))))
    by apply orZero_Some.
  rewrite numeric_processEvent_run. unfold healthy. cbn [failAfter db sent].
  rewrite Hnew. cbn [fmap option_fmap option_map]. rewrite forOf_send_run.
  unfold withAggregates. cbn [fst snd db aggregates events_log].
  rewrite numeric_applyWrites.
  cbn [daily_metrics hourly_order_counts product_metrics].
  split; [done|]. split_and!.
  - unfold dailyOf. rewrite Hw. cbn [type Numeric.written].
    repeat case_decide; try (exfalso; clash_types); cbn [upsertOpt];
      rewrite ?onConflictUpdate_lookup;
      destruct (daily_metrics (aggregates s) !! today now); cbn; lia.
  - unfold dailyOf. rewrite Hw. cbn [type Numeric.written].
    repeat case_decide; try (exfalso; clash_types); cbn [upsertOpt];
      rewrite ?onConflictUpdate_lookup;
      destruct (daily_metrics (aggregates s) !! today now); cbn; lia.
  - unfold hourlyOf. rewrite Hw. cbn [type Numeric.written].
    repeat case_decide; try (exfalso; clash_types); cbn [upsertOpt];
      rewrite ?onConflictUpdate_lookup;
      destruct (hourly_order_counts (aggregates s) !! hourBucket tz now);
      cbn; lia.
  - intros p. apply upsertLines_revenue.
Qed.

Lemma revenue_is_rounded_on_write_witness :
  events_log emptyStore !! eventKey halfCentA = None ∧
  let a' := aggregates (db (fst
    (Numeric.processEvent 1000 Qmult 0 0 halfCentA None (healthy emptyStore [])))) in
  revenue_confirmed (default zeroDaily (daily_metrics a' !! 0)) = 1 ∧
  revenue (default zeroHourly (hourly_order_counts a' !! 0)) = 1.
Proof.
  split; [reflexivity|].
  destruct (revenue_is_rounded_on_write 1000 Qmult 0 0 halfCentA None
              emptyStore [] eq_refl) as (_ & Hd & _ & Hh & _).
  cbv zeta. split; [exact Hd | exact Hh].
Defined.

(** C7 does not hold as stated: rounding happens during accumulation.
    Two confirmed orders of 0.005 each are both rounded up when they are
    written, so the day's confirmed revenue and the hour's revenue hold
    0.02, where the exact sum 0.010 rounded when read is 0.01. *)
Lemma half_cents_accumulate_two_cents :
  let run1 :=
    Numeric.processEvent 1000 Qmult 0 0 halfCentA None (healthy emptyStore []) in
  let run2 := Numeric.processEvent 1000 Qmult 0 0 halfCentB None (fst run1) in
  let a := aggregates (db (fst run2)) in
  snd run1 = Return true ∧ snd run2 = Return true ∧
  revenue_confirmed <$> daily_metrics a !! today 0 = Some 2 ∧
  revenue <$> hourly_order_counts a !! hourBucket 0 0 = Some 2 ∧
  roundedAtRead 1000 [5; 5] = 1.
Proof. vm_compute. done. Qed.
